(** * Expanded Spell Slots: a shallow embedding of [scripts/main.mjs]

    The module patches three host-owned objects of a Foundry VTT world
    (the D&D 5e slot table, the spell-level label map and the localization
    table) from a small persisted configuration, and edits that configuration
    through a settings form.  The development below embeds the functions of
    [scripts/main.mjs] as executable Rocq definitions over an explicit world
    state and proves properties of them.

    Conventions.
    - JavaScript numbers are restricted to integers and carried as [Z]
      (the integers [String] prints in plain decimal, of magnitude below
      10^21); [NaN] as produced by [parseInt] is [None].
    - A JavaScript object used as a dictionary is a [gmap string _]: a
      property access [obj[n]] with a number [n] goes through [String(n)],
      here [pretty n], so [obj[n]] and [obj[String(n)]] are one lookup.
    - An array is a list; [arr[i]] outside the array is [undefined].
    - An uncaught [TypeError] is the result [None] of a function into
      [option].
    - The host's settings store, form renderer and reload are black boxes:
      a save replaces the stored object, a render and a reload request are
      counted.  Console output and notifications are left out. *)

From Stdlib Require Import ZArith Zdiv Ascii String List Lia.
From stdpp Require Import base numbers option list strings pretty gmap fin_maps.

#[local] Set Warnings "-clear-no-such-hyp".

Local Open Scope string_scope.
Local Open Scope list_scope.
Local Open Scope Z_scope.

(** ** JavaScript primitives used by the script *)

Module JS.

(** Primitive values that reach the script from persisted settings and
    from form data. *)
Inductive value : Type :=
| VUndef
| VNull
| VBool (b : bool)
| VNum (n : Z)
| VStr (s : string).

Definition value_eqb (a b : value) : bool :=
  match a, b with
  | VUndef, VUndef => true
  | VNull, VNull => true
  | VBool x, VBool y => Bool.eqb x y
  | VNum x, VNum y => Z.eqb x y
  | VStr x, VStr y => String.eqb x y
  | _, _ => false
  end.

(** [a === b] on primitives. *)
Definition strict_eq (a b : value) : bool := value_eqb a b.

(** [String(v)] *)
Definition ToString (v : value) : string :=
  match v with
  | VUndef => "undefined"
  | VNull => "null"
  | VBool true => "true"
  | VBool false => "false"
  | VNum n => pretty n
  | VStr s => s
  end.

(** White space skipped by [parseInt] (the one-byte members of the
    ECMAScript [WhiteSpace] and [LineTerminator] classes). *)
Definition is_white (c : ascii) : bool :=
  let n := nat_of_ascii c in
  (n =? 32)%nat || ((9 <=? n)%nat && (n <=? 13)%nat).

Fixpoint trim_start (s : string) : string :=
  match s with
  | String c rest => if is_white c then trim_start rest else s
  | EmptyString => s
  end.

(** Value of a character as a digit in the given radix (10 or 16). *)
Definition digit_value (radix : Z) (c : ascii) : option Z :=
  let n := Z.of_nat (nat_of_ascii c) in
  let d :=
    if (48 <=? n) && (n <=? 57) then Some (n - 48)
    else if (97 <=? n) && (n <=? 122) then Some (n - 87)
    else if (65 <=? n) && (n <=? 90) then Some (n - 55)
    else None in
  match d with
  | Some k => if k <? radix then Some k else None
  | None => None
  end.

(** The longest prefix of digits, read left to right; [acc] is [None]
    until a first digit has been seen. *)
Fixpoint read_digits (radix : Z) (acc : option Z) (s : string) : option Z :=
  match s with
  | String c rest =>
      match digit_value radix c with
      | Some d => read_digits radix (Some (radix * default 0 acc + d)) rest
      | None => acc
      end
  | EmptyString => acc
  end.

Definition strip_sign (s : string) : Z * string :=
  match s with
  | String "-" rest => (-1, rest)
  | String "+" rest => (1, rest)
  | _ => (1, s)
  end.

Definition strip_hex (s : string) : Z * string :=
  match s with
  | String "0" (String "x" rest) => (16, rest)
  | String "0" (String "X" rest) => (16, rest)
  | _ => (10, s)
  end.

(** [parseInt(s)] with no radix argument, on a string. *)
Definition parseInt_string (s : string) : option Z :=
  let '(sign, s1) := strip_sign (trim_start s) in
  let '(radix, s2) := strip_hex s1 in
  (λ n, sign * n) <$> read_digits radix None s2.

(** [parseInt(v)]: the argument is converted with [String] first. *)
Definition parseInt (v : value) : option Z := parseInt_string (ToString v).

(** [p || d] where [p] is the number returned by [parseInt]: [NaN] and
    [0] are falsy. *)
Definition or_num (p : option Z) (d : Z) : Z :=
  match p with
  | Some n => if n =? 0 then d else n
  | None => d
  end.

(** [a || b] on possibly undefined strings: [undefined] and the empty
    string are falsy. *)
Definition or_str (a b : option string) : option string :=
  match a with
  | Some x => if String.eqb x "" then b else a
  | None => b
  end.

(** [arr[i]] on an array: [undefined] outside [0 .. length-1]. *)
Definition index {A} (arr : list A) (i : Z) : option A :=
  if i <? 0 then None else arr !! Z.to_nat i.

(** [a % b] truncates towards zero. *)
Definition rem (a b : Z) : Z := Z.rem a b.

(** [n + x] with a number on the left and a possibly undefined string on
    the right. *)
Definition concat_num (n : Z) (x : option string) : string :=
  pretty n +:+ default "undefined" x.

(** The integers [lo, lo+1, .., hi] visited by
    [for (let i = lo; i <= hi; i++)]. *)
Definition range (lo hi : Z) : list Z := seqZ lo (hi - lo + 1).

End JS.

Import JS.

Infix "|||" := or_num (at level 50, left associativity).

(** ** Module data *)

Definition MODULE_ID : string := "expanded-spell-slots".

(** One entry of [config.levels].  A property that is absent reads as
    [VUndef]. *)
Record LevelRule : Type := {
  enabled : value;
  characterLevel : value;
  slots : value
}.

(** The configuration object.  [levels] is [None] when the property holds
    [null] or [undefined]. *)
Record Config : Type := {
  maxSpellLevel : Z;
  levels : option (gmap string LevelRule)
}.

Definition DEFAULT_CONFIG : Config := {|
  maxSpellLevel := 12;
  levels := Some (
    <["10" := {| enabled := VBool true; characterLevel := VNum 19; slots := VNum 1 |}]> (
    <["11" := {| enabled := VBool true; characterLevel := VNum 20; slots := VNum 1 |}]> (
    <["12" := {| enabled := VBool true; characterLevel := VNum 20; slots := VNum 1 |}]> ∅)))
|}.

(** The object kept by the host under the setting ["config"]: only the
    properties it owns take part in a spread. *)
Record Stored : Type := {
  own_maxSpellLevel : option Z;
  own_levels : option (option (gmap string LevelRule))
}.

(** What [game.settings.get(MODULE_ID, "config")] does: it throws, or it
    returns a value, [None] being [undefined] or [null]. *)
Inductive SettingsGet : Type :=
| GetThrows
| GetReturns (o : option Stored).

(** [{ ...base, ...over }] *)
Definition spread (base : Config) (over : option Stored) : Config :=
  match over with
  | None => base
  | Some o =>
      {| maxSpellLevel := default (maxSpellLevel base) (own_maxSpellLevel o);
         levels := default (levels base) (own_levels o) |}
  end.

(** [getConfig()].  The spread copies the two properties; the callers
    that go on to change the copy hand it to [settings_set], and the world
    keeps what was saved. *)
Definition getConfig (settings : SettingsGet) : Config :=
  match settings with
  | GetReturns config => spread DEFAULT_CONFIG config
  | GetThrows => DEFAULT_CONFIG
  end.

(** [game.settings.set(MODULE_ID, "config", config)]: the host keeps the
    object it is given. *)
Definition settings_set (config : Config) : SettingsGet :=
  GetReturns (Some {| own_maxSpellLevel := Some (maxSpellLevel config);
                      own_levels := Some (levels config) |}).

(** ** Ordinal labels *)

(** [getOrdinalSuffix(n)] *)
Definition getOrdinalSuffix (n : Z) : string :=
  let s := ["th"; "st"; "nd"; "rd"] in
  let v := rem n 100 in
  concat_num n (or_str (or_str (index s (rem (v - 20) 10)) (index s v)) (index s 0)).

(** The template string [`${getOrdinalSuffix(level)} Level`]. *)
Definition level_label (level : Z) : string := getOrdinalSuffix level +:+ " Level".

(** ** Host state *)

(** The slot table: one row per character level, one cell per spell level. *)
Abbreviation Table := (list (list Z)).

(** The host objects the script reads and writes.
    - [SPELL_SLOT_TABLE] is [CONFIG.DND5E.SPELL_SLOT_TABLE];
    - [spellLevels] is [CONFIG.DND5E.spellLevels];
    - [translations] is [game.i18n?.translations], and inside it the object
      reached by [DND5E.SPELLCASTING.SLOTS], [None] when a link of that chain
      is missing;
    - [spell_model] is [CONFIG.DND5E.spellcasting?.spell] when it has an
      [updateSource] method, with the table that model keeps for itself. *)
Record Host : Type := {
  SPELL_SLOT_TABLE : option Table;
  spellLevels : option (gmap string string);
  translations : option (option (gmap string string));
  spell_model : option Table
}.

(** Everything the script can observe or change. *)
Record World : Type := {
  settings : SettingsGet;
  originalSpellSlotTable : option Table;
  host : Host;
  renders : nat;
  reloads : nat
}.

(** ** Labels and localization *)

(** The three [??= {}] assignments at the top of
    [updateSpellLevelsConfig]. *)
Definition ensure_namespace (tr : option (option (gmap string string)))
  : option (option (gmap string string)) :=
  match tr with
  | Some slots => Some (Some (default ∅ slots))
  | None => None
  end.

(** [game.i18n?.translations?.DND5E?.SPELLCASTING?.SLOTS] *)
Definition SLOTS (tr : option (option (gmap string string)))
  : option (gmap string string) := mjoin tr.

(** [`spell${level}`] *)
Definition slot_key (level : Z) : string := "spell" +:+ pretty level.

(** Body of the first loop of [updateSpellLevelsConfig], on the pair of the
    label map and the slot-label table (when reachable). *)
Definition purge_step (st : gmap string string * option (gmap string string)) (level : Z)
  : gmap string string * option (gmap string string) :=
  (delete (pretty level) st.1, delete (slot_key level) <$> st.2).

(** Body of the second loop of [updateSpellLevelsConfig]. *)
Definition install_step (st : gmap string string * option (gmap string string)) (level : Z)
  : gmap string string * option (gmap string string) :=
  let label := level_label level in
  (<[pretty level := label]> st.1, <[slot_key level := label]> <$> st.2).

(** [updateSpellLevelsConfig(maxLevel)].  The first [delete] dereferences
    [CONFIG.DND5E.spellLevels] and throws when that object is missing. *)
Definition updateSpellLevelsConfig (maxLevel : Z) (h : Host) : option Host :=
  let tr := ensure_namespace (translations h) in
  labels ← spellLevels h;
  let st0 := (labels, SLOTS tr) in
  let st1 := foldl purge_step st0 (range 10 99) in
  let st2 := foldl install_step st1 (range 10 maxLevel) in
  Some {| SPELL_SLOT_TABLE := SPELL_SLOT_TABLE h;
          spellLevels := Some st2.1;
          translations := (λ _, st2.2) <$> tr;
          spell_model := spell_model h |}.

(** ** The table patch *)

(** [table.map(row => [...row])] *)
Definition deep_copy (t : Table) : Table := (λ row, row) <$> t.

(** [while (row.length < n) row.push(0)], by the number of pushes left. *)
Fixpoint push_zeros (pushes : nat) (row : list Z) : list Z :=
  match pushes with
  | O => row
  | S k => push_zeros k (row ++ [0])
  end.

Definition extend_row (row : list Z) (n : Z) : list Z :=
  push_zeros (Z.to_nat (n - Z.of_nat (length row))) row.

(** Body of the inner loop of [applyExpandedSpellSlots]. *)
Definition patch_cell (spellLevel slotsToGrant : Z) (table : Table) (charLevel : Z) : Table :=
  let rowIndex := charLevel - 1 in
  let colIndex := spellLevel - 1 in
  match index table rowIndex with
  | Some row =>
      let row1 := extend_row row (colIndex + 1) in
      <[Z.to_nat rowIndex := <[Z.to_nat colIndex := slotsToGrant]> row1]> table
  | None => table
  end.

(** [levelConfig?.enabled] *)
Definition enabled_of (levelConfig : option LevelRule) : value :=
  match levelConfig with
  | Some rule => enabled rule
  | None => VUndef
  end.

(** [config.levels?.[spellLevel] || config.levels?.[String(spellLevel)]]:
    both operands read the property named [String(spellLevel)], and an
    object is truthy. *)
Definition level_config (config : Config) (spellLevel : Z) : option LevelRule :=
  match levels config ≫= (.!! pretty spellLevel) with
  | Some rule => Some rule
  | None => levels config ≫= (.!! ToString (VNum spellLevel))
  end.

(** Body of the outer loop of [applyExpandedSpellSlots]. *)
Definition patch_level (config : Config) (table : Table) (spellLevel : Z) : Table :=
  let levelConfig := level_config config spellLevel in
  let isEnabled :=
    strict_eq (enabled_of levelConfig) (VBool true)
    || strict_eq (enabled_of levelConfig) (VStr "true") in
  if negb isEnabled then table
  else
    match levelConfig with
    | Some rule =>
        let requiredCharLevel := parseInt (characterLevel rule) ||| 20 in
        let slotsToGrant := parseInt (slots rule) ||| 1 in
        foldl (patch_cell spellLevel slotsToGrant) table (range requiredCharLevel 20)
    | None => table
    end.

(** The two loops: the table patched for every tier of [10 .. maxLevel]. *)
Definition patch_table (config : Config) (table : Table) : Table :=
  foldl (patch_level config) table (range 10 (maxSpellLevel config)).

(** [applyExpandedSpellSlots()].  Reading [.map] off a missing
    [SPELL_SLOT_TABLE] throws. *)
Definition applyExpandedSpellSlots (w : World) : option World :=
  let config := getConfig (settings w) in
  let maxLevel := maxSpellLevel config in
  original ←
    match originalSpellSlotTable w with
    | Some t => Some t
    | None => deep_copy <$> SPELL_SLOT_TABLE (host w)
    end;
  let h0 := {| SPELL_SLOT_TABLE := Some (deep_copy original);
               spellLevels := spellLevels (host w);
               translations := translations (host w);
               spell_model := spell_model (host w) |} in
  h1 ← updateSpellLevelsConfig maxLevel h0;
  table0 ← SPELL_SLOT_TABLE h1;
  let table := patch_table config table0 in
  let h2 := {| SPELL_SLOT_TABLE := Some table;
               spellLevels := spellLevels h1;
               translations := translations h1;
               spell_model := (λ _, table) <$> spell_model h1 |} in
  Some {| settings := settings w;
          originalSpellSlotTable := Some original;
          host := h2;
          renders := renders w;
          reloads := reloads w |}.

(** ** The settings form *)

(** One row of the form, as built by [getData]. *)
Record FormRow : Type := {
  row_level : Z;
  row_label : string;
  row_enabled : bool;
  row_characterLevel : Z;
  row_slots : Z
}.

(** Body of the loop of [getData]. *)
Definition form_row (config : Config) (level : Z) : FormRow :=
  let levelConfig :=
    default {| enabled := VBool false; characterLevel := VNum 20; slots := VNum 1 |}
            (level_config config level) in
  let isEnabled :=
    strict_eq (enabled levelConfig) (VBool true)
    || strict_eq (enabled levelConfig) (VStr "true") in
  {| row_level := level;
     row_label := level_label level;
     row_enabled := isEnabled;
     row_characterLevel := parseInt (characterLevel levelConfig) ||| 20;
     row_slots := parseInt (slots levelConfig) ||| 1 |}.

(** [getData()]: the configuration, the rows and [maxSpellLevel]. *)
Definition getData (w : World) : Config * list FormRow * Z :=
  let config := getConfig (settings w) in
  let maxToShow := Z.max (maxSpellLevel config) 10 in
  (config, form_row config <$> range 10 maxToShow, maxSpellLevel config).

(** [_addLevel()].  Assigning into a missing [config.levels] throws. *)
Definition _addLevel (w : World) : option World :=
  let config := getConfig (settings w) in
  let newLevel := maxSpellLevel config + 1 in
  lv ← levels config;
  let config1 := {|
    maxSpellLevel := newLevel;
    levels := Some (<[pretty newLevel :=
                {| enabled := VBool true; characterLevel := VNum 20; slots := VNum 1 |}]> lv) |} in
  Some {| settings := settings_set config1;
          originalSpellSlotTable := originalSpellSlotTable w;
          host := host w;
          renders := S (renders w);
          reloads := reloads w |}.

(** [_removeLevel(level)].  Deleting from a missing [config.levels]
    throws. *)
Definition _removeLevel (level : Z) (w : World) : option World :=
  let config := getConfig (settings w) in
  if level <=? 10 then Some w
  else
    lv ← levels config;
    let lv1 := delete (pretty level) lv in
    let config1 := {|
      maxSpellLevel :=
        if level =? maxSpellLevel config then level - 1 else maxSpellLevel config;
      levels := Some lv1 |} in
    Some {| settings := settings_set config1;
            originalSpellSlotTable := originalSpellSlotTable w;
            host := host w;
            renders := S (renders w);
            reloads := reloads w |}.

(** [formData[key]] *)
Definition field (formData : gmap string value) (key : string) : value :=
  default VUndef (formData !! key).

(** Body of the loop of [_updateObject]. *)
Definition submit_level (formData : gmap string value)
    (lv : gmap string LevelRule) (level : Z) : gmap string LevelRule :=
  let enabledKey := "levels." +:+ pretty level +:+ ".enabled" in
  let charLevelKey := "levels." +:+ pretty level +:+ ".characterLevel" in
  let slotsKey := "levels." +:+ pretty level +:+ ".slots" in
  let enabledValue := field formData enabledKey in
  let isEnabled :=
    strict_eq enabledValue (VBool true)
    || strict_eq enabledValue (VStr "on")
    || strict_eq enabledValue (VStr "true") in
  <[pretty level := {|
      enabled := VBool isEnabled;
      characterLevel := VNum (parseInt (field formData charLevelKey) ||| 20);
      slots := VNum (parseInt (field formData slotsKey) ||| 1) |}]> lv.

(** The configuration built by [_updateObject]. *)
Definition submitted_config (currentConfig : Config) (formData : gmap string value) : Config :=
  {| maxSpellLevel := maxSpellLevel currentConfig;
     levels := Some (foldl (submit_level formData) ∅
                           (range 10 (maxSpellLevel currentConfig))) |}.

(** [_updateObject(event, formData)]: save, then [reloadGame()]. *)
Definition _updateObject (formData : gmap string value) (w : World) : World :=
  let currentConfig := getConfig (settings w) in
  let newConfig := submitted_config currentConfig formData in
  {| settings := settings_set newConfig;
     originalSpellSlotTable := originalSpellSlotTable w;
     host := host w;
     renders := renders w;
     reloads := S (reloads w) |}.

(** ** Lifecycle hooks *)

(** An actor as the [ready] hook sees it: its name, whether
    [actor.system?.spells] is truthy, and its [_prepareSpellcasting]
    method: [None] when the actor has none, [Some true] when a call
    returns, [Some false] when a call throws.  What a call does to the
    actor is the host's business; the calls made are recorded. *)
Record Actor : Type := {
  actor_name : string;
  system_spells : bool;
  _prepareSpellcasting : option bool
}.

(** The game the hooks run in: the world, [game.actors], and for every
    scene of [game.scenes] the [token.actor] of each of its tokens, [None]
    for a token without actor. *)
Record Game : Type := {
  world : World;
  actors : list Actor;
  scenes : list (list (option Actor))
}.

(** What the [ready] hook leaves: the world, the names of the actors
    whose [_prepareSpellcasting] was called, in call order, and the names
    given to [console.warn]. *)
Record Readied : Type := {
  readied_world : World;
  prepared : list string;
  warned : list string
}.

(** The test [actor.system?.spells && actor._prepareSpellcasting] *)
Definition can_prepare (actor : Actor) : bool :=
  system_spells actor && bool_decide (is_Some (_prepareSpellcasting actor)).

(** Body of the loop over [game.actors]: a throwing call is caught and
    reported with the actor's name. *)
Definition prepare_actor (st : list string * list string) (actor : Actor)
  : list string * list string :=
  if can_prepare actor then
    match _prepareSpellcasting actor with
    | Some false => (st.1 ++ [actor_name actor], st.2 ++ [actor_name actor])
    | _ => (st.1 ++ [actor_name actor], st.2)
    end
  else st.

(** Body of the loop over a scene's tokens: [actor?.system?.spells]
    passes over a token without actor, and a throwing call is caught and
    dropped. *)
Definition prepare_token (st : list string * list string) (token : option Actor)
  : list string * list string :=
  match token with
  | Some actor =>
      if can_prepare actor then (st.1 ++ [actor_name actor], st.2) else st
  | None => st
  end.

(** The [setup] hook. *)
Definition setup_hook (w : World) : option World := applyExpandedSpellSlots w.

(** The [i18nInit] hook. *)
Definition i18nInit_hook (w : World) : option World :=
  let config := getConfig (settings w) in
  h ← updateSpellLevelsConfig (maxSpellLevel config) (host w);
  Some {| settings := settings w;
          originalSpellSlotTable := originalSpellSlotTable w;
          host := h;
          renders := renders w;
          reloads := reloads w |}.

(** The [ready] hook.  [templates] tells whether the awaited
    [registerTemplates()] resolves; when it rejects, so does the hook. *)
Definition ready_hook (templates : bool) (g : Game) : option Readied :=
  if negb templates then None
  else
    w1 ← applyExpandedSpellSlots (world g);
    let st1 := foldl prepare_actor ([], []) (actors g) in
    let st2 := foldl (λ st scene, foldl prepare_token st scene) st1 (scenes g) in
    Some {| readied_world := w1; prepared := st2.1; warned := st2.2 |}.

(** ** Sample worlds *)

(** A host that is ready: a table, a label map, a localization table and a
    spellcasting model. *)
Definition ready_host (t : Table) : Host :=
  {| SPELL_SLOT_TABLE := Some t;
     spellLevels := Some ∅;
     translations := Some (Some ∅);
     spell_model := Some t |}.

(** The world at start-up: nothing captured, nothing rendered. *)
Definition boot (g : SettingsGet) (h : Host) : World :=
  {| settings := g; originalSpellSlotTable := None; host := h;
     renders := 0; reloads := 0 |}.

(** A 20-row table in the shape of the system's full-caster progression. *)
Definition sample_table : Table :=
  [ [2]; [3]; [4;2]; [4;3]; [4;3;2]; [4;3;3]; [4;3;3;1]; [4;3;3;2];
    [4;3;3;3;1]; [4;3;3;3;2]; [4;3;3;3;2;1]; [4;3;3;3;2;1];
    [4;3;3;3;2;1;1]; [4;3;3;3;2;1;1]; [4;3;3;3;2;1;1;1]; [4;3;3;3;2;1;1;1];
    [4;3;3;3;2;1;1;1;1]; [4;3;3;3;3;1;1;1;1]; [4;3;3;3;3;2;1;1;1];
    [4;3;3;3;3;2;2;1;1] ].

(** A host with a table and a label map, but neither a spellcasting
    model nor a localization table. *)
Definition bare_host (t : Table) : Host :=
  {| SPELL_SLOT_TABLE := Some t; spellLevels := Some ∅;
     translations := None; spell_model := None |}.

(** A label map with a label left by an earlier maximum of 100. *)
Definition stale_host : Host :=
  {| SPELL_SLOT_TABLE := Some sample_table;
     spellLevels := Some (<["100" := "100th Level"]> (<["15" := "15th Level"]> ∅));
     translations := None;
     spell_model := None |}.

(** A single tier 10 from character level 20, with the given [enabled]
    and [slots] values. *)
Definition one_tier (en sl : value) : Config :=
  {| maxSpellLevel := 10;
     levels := Some (<["10" := {| enabled := en; characterLevel := VNum 20; slots := sl |}]> ∅) |}.

(** A fresh install on a ready host: the settings read returns the
    registered default. *)
Definition fresh_world : World :=
  boot (settings_set DEFAULT_CONFIG) (ready_host sample_table).

(** A saved configuration whose tier 12 opens at character level 17
    with three slots, on a ready host. *)
Definition tuned_config : Config :=
  {| maxSpellLevel := 12;
     levels := Some (
       <["10" := {| enabled := VBool true; characterLevel := VNum 19; slots := VNum 1 |}]> (
       <["11" := {| enabled := VBool false; characterLevel := VNum 20; slots := VNum 1 |}]> (
       <["12" := {| enabled := VBool true; characterLevel := VNum 17; slots := VNum 3 |}]> ∅))) |}.

Definition tuned_world : World :=
  boot (settings_set tuned_config) (ready_host sample_table).

(** ** Vocabulary of the statements *)

#[global] Instance value_eq_dec : EqDecision value.
Proof. solve_decision. Defined.

(** A leading character of a printed positive number: a digit from 1
    to 9, which [parseInt] neither skips nor takes for a sign or for a
    radix prefix. *)
Definition plain_head (c : ascii) : Prop :=
  is_white c = false ∧ c ≠ "-"%char ∧ c ≠ "+"%char ∧ c ≠ "0"%char.

(** The suffix as the rule states it: by the last digit, with the band
    11 to 13 of the last two digits set apart. *)
Definition ordinal_suffix (n : Z) : string :=
  if bool_decide (11 ≤ n `mod` 100 ≤ 13) then "th"
  else if n `mod` 10 =? 1 then "st"
  else if n `mod` 10 =? 2 then "nd"
  else if n `mod` 10 =? 3 then "rd"
  else "th".

(** The suffix expression of [getOrdinalSuffix], on [v = n % 100]. *)
Definition chosen_suffix (v : Z) : string :=
  default "undefined"
    (or_str (or_str (index ["th"; "st"; "nd"; "rd"] (rem (v - 20) 10))
                    (index ["th"; "st"; "nd"; "rd"] v))
            (index ["th"; "st"; "nd"; "rd"] 0)).

(** One map, keyed by [key], after the purge of [10 .. 99] and the
    assignments of [10 .. maxLevel]. *)
Definition relabel (key : Z → string) (maxLevel : Z) (m : gmap string string)
  : gmap string string :=
  foldl (λ m level, <[key level := level_label level]> m)
        (foldl (λ m level, delete (key level) m) m (range 10 99))
        (range 10 maxLevel).

(** [table[i][j]], [None] where the row or the cell is missing. *)
Definition cell (t : Table) (i j : nat) : option Z := t !! i ≫= (.!! j).

(** What the inner loop does to a row it reaches: pad, then assign. *)
Definition write_row (spellLevel slotsToGrant : Z) (row : list Z) : list Z :=
  <[Z.to_nat (spellLevel - 1) := slotsToGrant]> (extend_row row (spellLevel - 1 + 1)).

(** The slot count tier [spellLevel] assigns in row [i], if it assigns
    one: the tier is enabled and character level [i + 1] lies between the
    required level and 20. *)
Definition tier_write (config : Config) (spellLevel : Z) (i : nat) : option Z :=
  let levelConfig := level_config config spellLevel in
  if strict_eq (enabled_of levelConfig) (VBool true)
     || strict_eq (enabled_of levelConfig) (VStr "true")
  then
    rule ← levelConfig;
    if bool_decide (parseInt (characterLevel rule) ||| 20 ≤ Z.of_nat i + 1 ≤ 20)
    then Some (parseInt (slots rule) ||| 1)
    else None
  else None.

(** The slot count assigned to [table[i][j]], if any. *)
Definition target (config : Config) (i j : nat) : option Z :=
  let spellLevel := Z.of_nat j + 1 in
  if bool_decide (10 ≤ spellLevel ≤ maxSpellLevel config)
  then tier_write config spellLevel i
  else None.

(** A row after tier [spellLevel] has been processed. *)
Definition tier_on_row (config : Config) (i : nat) (row : list Z) (spellLevel : Z)
  : list Z :=
  match tier_write config spellLevel i with
  | Some s => write_row spellLevel s row
  | None => row
  end.

(** The snapshot the call works from: the one already captured, else
    the live table. *)
Definition snapshot_of (w : World) : option Table :=
  match originalSpellSlotTable w with
  | Some t => Some t
  | None => SPELL_SLOT_TABLE (host w)
  end.

(** The world a successful call leaves behind. *)
Definition applied (w : World) (original : Table) (labels : gmap string string)
  : World :=
  let config := getConfig (settings w) in
  let table := patch_table config original in
  {| settings := settings w;
     originalSpellSlotTable := Some original;
     host := {|
       SPELL_SLOT_TABLE := Some table;
       spellLevels := Some (relabel pretty (maxSpellLevel config) labels);
       translations :=
         (λ slots, Some (relabel slot_key (maxSpellLevel config) (default ∅ slots)))
           <$> translations (host w);
       spell_model := (λ _, table) <$> spell_model (host w) |};
     renders := renders w;
     reloads := reloads w |}.

(** The host is ready for the patch: a table to start from and a label
    map. *)
Definition patchable (w : World) : Prop :=
  (is_Some (originalSpellSlotTable w) ∨ is_Some (SPELL_SLOT_TABLE (host w)))
  ∧ is_Some (spellLevels (host w)).

(** The four cells the default configuration assigns. *)
Definition default_cells : list (nat * nat) :=
  [(18, 9); (19, 9); (19, 10); (19, 11)]%nat.

(** No configuration was ever saved: the settings read throws, returns
    nothing, or returns the registered default. *)
Definition fresh_install (g : SettingsGet) : Prop :=
  g = GetThrows ∨ g = GetReturns None ∨ g = settings_set DEFAULT_CONFIG.

(** The keys of the tiers [10 .. maxLevel]. *)
Definition tier_keys (maxLevel : Z) : gset string :=
  list_to_set (pretty <$> range 10 maxLevel).

(** The rules of a configuration are those of the tiers
    [10 .. maxSpellLevel], no more and no fewer. *)
Definition tiers_exact (config : Config) : Prop :=
  ∃ lv, levels config = Some lv ∧ dom lv = tier_keys (maxSpellLevel config).

(** The slot count a stored or submitted value stands for: its integer
    value when it parses to one other than 0, and 1 otherwise. *)
Definition slot_count (v : value) : Z :=
  match parseInt v with
  | Some n => if bool_decide (n = 0) then 1 else n
  | None => 1
  end.

(** The rule [_updateObject] builds for a tier from the form data. *)
Definition submitted_rule (formData : gmap string value) (level : Z) : LevelRule :=
  let enabledValue := field formData ("levels." +:+ pretty level +:+ ".enabled") in
  {| enabled :=
       VBool (strict_eq enabledValue (VBool true)
              || strict_eq enabledValue (VStr "on")
              || strict_eq enabledValue (VStr "true"));
     characterLevel :=
       VNum (parseInt (field formData ("levels." +:+ pretty level +:+ ".characterLevel"))
             ||| 20);
     slots :=
       VNum (parseInt (field formData ("levels." +:+ pretty level +:+ ".slots")) ||| 1) |}.

(** The rule [_addLevel] gives a new tier. *)
Definition fresh_rule : LevelRule :=
  {| enabled := VBool true; characterLevel := VNum 20; slots := VNum 1 |}.

(** The flag a form submission stores for a tier. *)
Definition submitted_enabled (formData : gmap string value) (level : Z) : bool :=
  bool_decide (field formData ("levels." +:+ pretty level +:+ ".enabled")
               ∈ [VBool true; VStr "on"; VStr "true"]).

(** The required character level a form submission stores for a tier. *)
Definition submitted_characterLevel (formData : gmap string value) (level : Z) : Z :=
  parseInt (field formData ("levels." +:+ pretty level +:+ ".characterLevel")) ||| 20.

(** The slot count a form submission stores for a tier. *)
Definition submitted_slots (formData : gmap string value) (level : Z) : Z :=
  parseInt (field formData ("levels." +:+ pretty level +:+ ".slots")) ||| 1.

(** The actors a loop of the [ready] hook calls, by name. *)
Definition callable_names (l : list Actor) : list string :=
  actor_name <$> filter (λ a, can_prepare a = true) l.

(** The actors whose call throws, by name. *)
Definition throwing_names (l : list Actor) : list string :=
  actor_name <$> filter (λ a, can_prepare a = true ∧ _prepareSpellcasting a = Some false) l.

(** The actors behind the tokens of all scenes, in visiting order. *)
Definition token_actors (scenes : list (list (option Actor))) : list Actor :=
  scenes ≫= omap id.

(** A game with three actors, the second of which throws, and a scene
    with a token of the third actor and a token without actor. *)
Definition sample_game : Game :=
  {| world := fresh_world;
     actors := [ {| actor_name := "Ayla"; system_spells := true;
                    _prepareSpellcasting := Some true |};
                 {| actor_name := "Brom"; system_spells := true;
                    _prepareSpellcasting := Some false |};
                 {| actor_name := "Crate"; system_spells := false;
                    _prepareSpellcasting := Some true |};
                 {| actor_name := "Dara"; system_spells := true;
                    _prepareSpellcasting := Some true |} ];
     scenes := [ [ Some {| actor_name := "Dara"; system_spells := true;
                           _prepareSpellcasting := Some false |};
                   None ] ] |}.

(** * Properties *)

(** ** [parseInt] on numbers *)

Section ParseInt.

Lemma digit_value_pretty_char (d : N) :
  (d < 10)%N → digit_value 10 (pretty_N_char d) = Some (Z.of_N d).
Proof.
  intros Hd.
  assert (d = 0 ∨ d = 1 ∨ d = 2 ∨ d = 3 ∨ d = 4 ∨ d = 5 ∨ d = 6
          ∨ d = 7 ∨ d = 8 ∨ d = 9)%N as Hcases by lia.
  repeat (destruct Hcases as [-> | Hcases]; [reflexivity |]).
  by subst.
Qed.

Lemma plain_head_pretty_char (d : N) :
  (0 < d < 10)%N → plain_head (pretty_N_char d).
Proof.
  intros Hd.
  assert (d = 1 ∨ d = 2 ∨ d = 3 ∨ d = 4 ∨ d = 5 ∨ d = 6
          ∨ d = 7 ∨ d = 8 ∨ d = 9)%N as Hcases by lia.
  repeat (destruct Hcases as [-> | Hcases]; [by repeat split |]).
  subst. by repeat split.
Qed.

(** Printing [x] in front of [s] and reading the digits back. *)
Lemma read_digits_pretty_go (x : N) :
  (0 < x)%N →
  ∀ (s : string) (acc : option Z),
    (∃ c rest, plain_head c ∧ pretty_N_go x s = String c rest)
    ∧ ∃ k : Z, 0 ≤ k ∧
        read_digits 10 acc (pretty_N_go x s)
        = read_digits 10 (Some (10 ^ k * default 0 acc + Z.of_N x)) s.
Proof.
  induction (N.lt_wf_0 x) as [x _ IH]. intros Hx s acc.
  rewrite pretty_N_go_step by done.
  assert (x `mod` 10 < 10)%N as Hmod by (apply N.mod_lt; lia).
  pose proof (N.div_mod x 10 ltac:(lia)) as Hdm.
  destruct (decide (x `div` 10 = 0)%N) as [Hz | Hnz].
  - rewrite Hz, pretty_N_go_0. split.
    + eexists _, _. split; [| done]. apply plain_head_pretty_char. lia.
    + exists 1. split; [lia |]. cbn [read_digits].
      rewrite digit_value_pretty_char by done.
      replace (x `mod` 10)%N with x by (rewrite Hz in Hdm; lia).
      do 2 f_equal; lia.
  - destruct (IH (x `div` 10)%N) with
      (s := String (pretty_N_char (x `mod` 10)) s) (acc := acc)
      as [Hhead (k & Hk & Hread)].
    { apply N.div_lt; lia. }
    { lia. }
    split; [done |].
    exists (k + 1). split; [lia |]. rewrite Hread. cbn [read_digits].
    rewrite digit_value_pretty_char by done. cbn [default].
    do 2 f_equal. rewrite Z.pow_add_r by lia.
    apply (f_equal Z.of_N) in Hdm. rewrite N2Z.inj_add, N2Z.inj_mul in Hdm.
    change (Z.of_N 10) with 10 in Hdm.
    rewrite Hdm. unfold id. change (10 ^ 1) with 10. ring.
Qed.

Lemma parseInt_string_pretty_pos (p : positive) :
  (∃ c rest, plain_head c ∧ pretty (Npos p) = String c rest)
  ∧ read_digits 10 None (pretty (Npos p)) = Some (Z.pos p).
Proof.
  unfold pretty, pretty_N. rewrite decide_False by done.
  destruct (read_digits_pretty_go (Npos p) ltac:(lia) "" None)
    as [Hhead (k & Hk & Hread)].
  split; [done |]. rewrite Hread. cbn. f_equal. lia.
Qed.

Lemma parseInt_string_plain (c : ascii) (rest : string) :
  plain_head c →
  parseInt_string (String c rest) = read_digits 10 None (String c rest).
Proof.
  intros (Hw & Hm & Hp & Hz). unfold parseInt_string.
  cbn [trim_start]. rewrite Hw.
  assert (strip_sign (String c rest) = (1, String c rest)) as ->.
  { unfold strip_sign. destruct c as [[] [] [] [] [] [] [] []]; done. }
  assert (strip_hex (String c rest) = (10, String c rest)) as ->.
  { unfold strip_hex. destruct c as [[] [] [] [] [] [] [] []]; done. }
  destruct (read_digits 10 None (String c rest)) as [n |]; cbn; [| done].
  f_equal. lia.
Qed.

Lemma parseInt_string_minus (c : ascii) (rest : string) :
  plain_head c →
  parseInt_string (String "-" (String c rest))
  = Z.opp <$> read_digits 10 None (String c rest).
Proof.
  intros (Hw & Hm & Hp & Hz). unfold parseInt_string.
  change (trim_start (String "-" (String c rest)))
    with (String "-" (String c rest)).
  change (strip_sign (String "-" (String c rest))) with (-1, String c rest).
  cbv iota beta.
  assert (strip_hex (String c rest) = (10, String c rest)) as ->.
  { unfold strip_hex. destruct c as [[] [] [] [] [] [] [] []]; done. }
  destruct (read_digits 10 None (String c rest)) as [n |]; cbn; [| done].
  f_equal; lia.
Qed.

(** [parseInt(n)] is [n] for an integer [n]. *)
Lemma parseInt_num (n : Z) : parseInt (VNum n) = Some n.
Proof.
  unfold parseInt, ToString. destruct n as [| p | p].
  - reflexivity.
  - change (pretty (Z.pos p)) with (pretty (Npos p)).
    destruct (parseInt_string_pretty_pos p) as [(c & rest & Hc & Heq) Hread].
    rewrite Heq in *. by rewrite parseInt_string_plain.
  - change (pretty (Z.neg p)) with (String "-" (pretty (Npos p))).
    destruct (parseInt_string_pretty_pos p) as [(c & rest & Hc & Heq) Hread].
    rewrite Heq in *. rewrite parseInt_string_minus by done.
    by rewrite Hread.
Qed.

(** [parseInt] on the kinds of value a stored rule or a form field can
    hold. *)
Example parseInt_samples :
  parseInt <$> [VNum 0; VNum 12; VNum (-7); VStr " 12px"; VStr "0x1F"; VStr "abc";
                VStr ""; VUndef; VNull; VBool true; VStr "-0"; VStr "+5"]
  = [Some 0; Some 12; Some (-7); Some 12; Some 31; None;
     None; None; None; None; Some 0; Some 5].
Proof. vm_compute. reflexivity. Qed.

End ParseInt.

(** ** Folding deletions and assignments over a range of keys *)

Section KeyFolds.
Context {V : Type} (key : Z → string) (val : Z → V).

Local Abbreviation purge m l := (foldl (λ m level, delete (key level) m) m l).
Local Abbreviation install m l :=
  (foldl (λ m level, <[key level := val level]> m) m l).

Lemma foldl_delete_lookup (l : list Z) (m : gmap string V) (k : string) :
  purge m l !! k = if decide (k ∈ key <$> l) then None else m !! k.
Proof.
  revert m. induction l as [| a l IH]; intros m; cbn [foldl fmap list_fmap].
  - rewrite decide_False; [done | apply not_elem_of_nil].
  - rewrite IH, lookup_delete.
    destruct (decide (k ∈ key <$> l)) as [Hin | Hout].
    + rewrite decide_True; [done |]. apply elem_of_cons. by right.
    + destruct (decide (key a = k)) as [<- | Hne].
      * rewrite decide_True; [done |]. apply elem_of_cons. by left.
      * rewrite decide_False; [done |]. rewrite elem_of_cons. by intros [? | ?].
Qed.

Lemma foldl_insert_lookup_notin (l : list Z) (m : gmap string V) (k : string) :
  k ∉ key <$> l → install m l !! k = m !! k.
Proof.
  revert m. induction l as [| a l IH]; intros m Hk; cbn [foldl]; [done |].
  rewrite fmap_cons in Hk. apply not_elem_of_cons in Hk as [Hne Hk].
  rewrite IH by done. by rewrite lookup_insert_ne.
Qed.

(** Where a key is assigned, the map the loop started from is
    forgotten. *)
Lemma foldl_insert_lookup_base (l : list Z) (m m' : gmap string V) (k : string) :
  k ∈ key <$> l → install m l !! k = install m' l !! k.
Proof.
  revert m m'. induction l as [| a l IH]; intros m m' Hk; cbn [foldl].
  - by apply elem_of_nil in Hk.
  - destruct (decide (k ∈ key <$> l)) as [Hin | Hout]; [by apply IH |].
    rewrite fmap_cons in Hk. apply elem_of_cons in Hk as [-> | Hk]; [| done].
    rewrite !foldl_insert_lookup_notin by done.
    by rewrite !lookup_insert_eq.
Qed.

Lemma foldl_insert_lookup_in `{!Inj (=) (=) key}
    (l : list Z) (m : gmap string V) (n : Z) :
  n ∈ l → install m l !! key n = Some (val n).
Proof.
  revert m. induction l as [| a l IH]; intros m Hn; cbn [foldl].
  - by apply elem_of_nil in Hn.
  - destruct (decide (n ∈ l)) as [Hin | Hout]; [by apply IH |].
    apply elem_of_cons in Hn as [-> | Hn]; [| done].
    rewrite foldl_insert_lookup_notin.
    + by rewrite lookup_insert_eq.
    + intros Hk. apply list_elem_of_fmap in Hk as (b & Hb & Hbl).
      apply (inj key) in Hb. by subst.
Qed.

Lemma foldl_insert_dom (l : list Z) (m : gmap string V) :
  dom (install m l) = dom m ∪ list_to_set (key <$> l).
Proof.
  revert m. induction l as [| a l IH]; intros m; cbn [foldl].
  - cbn. set_solver.
  - rewrite IH, dom_insert_L, fmap_cons. cbn [list_to_set]. set_solver.
Qed.

End KeyFolds.

(** ** Ordinal suffixes and labels *)

Lemma string_app_assoc (a b c : string) : (a +:+ b) +:+ c = a +:+ (b +:+ c).
Proof.
  induction a as [| x a IH]; [done |].
  change (String x ((a +:+ b) +:+ c) = String x (a +:+ b +:+ c)).
  by rewrite IH.
Qed.

#[local] Instance slot_key_inj : Inj (=) (=) slot_key.
Proof. intros a b Hab. unfold slot_key in Hab. by simplify_eq. Qed.

Lemma elem_of_range (lo hi k : Z) : k ∈ range lo hi ↔ lo ≤ k ≤ hi.
Proof. unfold range. rewrite elem_of_seqZ. lia. Qed.

Lemma suffix_choice_all :
  forallb (λ v, String.eqb (chosen_suffix v) (ordinal_suffix v)) (seqZ 0 100) = true.
Proof. vm_compute. reflexivity. Qed.

Lemma suffix_choice (v : Z) : 0 ≤ v < 100 → chosen_suffix v = ordinal_suffix v.
Proof.
  intros Hv. apply String.eqb_eq.
  pose proof suffix_choice_all as Hall. rewrite forallb_forall in Hall.
  apply Hall. apply list_elem_of_In, elem_of_seqZ. lia.
Qed.

Lemma ordinal_suffix_mod (n : Z) : ordinal_suffix (n `mod` 100) = ordinal_suffix n.
Proof.
  unfold ordinal_suffix. rewrite Z.mod_mod by lia.
  rewrite (Z.mod_mod_divide n 100 10); [done |]. by exists 10.
Qed.

(** [getOrdinalSuffix] on a number that is not negative. *)
Lemma getOrdinalSuffix_spec (n : Z) :
  0 ≤ n → getOrdinalSuffix n = pretty n +:+ ordinal_suffix n.
Proof.
  intros Hn. unfold getOrdinalSuffix, concat_num. cbv zeta.
  change (rem n 100) with (Z.rem n 100). rewrite (Z.rem_mod_nonneg n 100) by lia.
  fold (chosen_suffix (n `mod` 100)).
  rewrite suffix_choice by (apply Z.mod_pos_bound; lia).
  by rewrite ordinal_suffix_mod.
Qed.

(** Below 10 the suffixes are the usual ones as well. *)
Example getOrdinalSuffix_samples :
  getOrdinalSuffix <$> [0; 1; 2; 3; 4; 9; 101; 112; 1000]
  = ["0th"; "1st"; "2nd"; "3rd"; "4th"; "9th"; "101st"; "112th"; "1000th"].
Proof. vm_compute. reflexivity. Qed.

(** ** The label map after [updateSpellLevelsConfig] *)

Section Labels.

Lemma purge_fst (st : gmap string string * option (gmap string string)) (l : list Z) :
  (foldl purge_step st l).1 = foldl (λ m level, delete (pretty level) m) st.1 l.
Proof. revert st. induction l as [| a l IH]; intros st; cbn [foldl]; [done | by rewrite IH]. Qed.

Lemma purge_snd (st : gmap string string * option (gmap string string)) (l : list Z) :
  (foldl purge_step st l).2
  = (λ m, foldl (λ m level, delete (slot_key level) m) m l) <$> st.2.
Proof.
  revert st. induction l as [| a l IH]; intros st; cbn [foldl].
  - by destruct st.2.
  - rewrite IH. cbn. by destruct st.2.
Qed.

Lemma install_fst (st : gmap string string * option (gmap string string)) (l : list Z) :
  (foldl install_step st l).1
  = foldl (λ m level, <[pretty level := level_label level]> m) st.1 l.
Proof. revert st. induction l as [| a l IH]; intros st; cbn [foldl]; [done | by rewrite IH]. Qed.

Lemma install_snd (st : gmap string string * option (gmap string string)) (l : list Z) :
  (foldl install_step st l).2
  = (λ m, foldl (λ m level, <[slot_key level := level_label level]> m) m l) <$> st.2.
Proof.
  revert st. induction l as [| a l IH]; intros st; cbn [foldl].
  - by destruct st.2.
  - rewrite IH. cbn. by destruct st.2.
Qed.

Lemma relabel_lookup_in (key : Z → string) `{!Inj (=) (=) key}
    (maxLevel : Z) (m : gmap string string) (n : Z) :
  10 ≤ n ≤ maxLevel → relabel key maxLevel m !! key n = Some (level_label n).
Proof.
  intros Hn. unfold relabel.
  rewrite (foldl_insert_lookup_in key level_label); [done |].
  by apply elem_of_range.
Qed.

Lemma relabel_lookup_out (key : Z → string) `{!Inj (=) (=) key}
    (maxLevel : Z) (m : gmap string string) (n : Z) :
  ¬ 10 ≤ n ≤ maxLevel →
  relabel key maxLevel m !! key n
  = if bool_decide (10 ≤ n ≤ 99) then None else m !! key n.
Proof.
  intros Hn. unfold relabel.
  rewrite (foldl_insert_lookup_notin key level_label).
  - rewrite foldl_delete_lookup. case_decide as Hin; case_bool_decide as Hr; try done.
    + apply list_elem_of_fmap in Hin as (b & Hb & Hbl).
      apply (inj key) in Hb. subst b. by apply elem_of_range in Hbl.
    + exfalso. apply Hin, list_elem_of_fmap. exists n.
      split; [done | by apply elem_of_range].
  - intros Hin. apply list_elem_of_fmap in Hin as (b & Hb & Hbl).
    apply (inj key) in Hb. subst b. by apply elem_of_range in Hbl.
Qed.

(** Relabelling a relabelled map changes nothing. *)
Lemma relabel_idem (key : Z → string) (maxLevel : Z) (m : gmap string string) :
  relabel key maxLevel (relabel key maxLevel m) = relabel key maxLevel m.
Proof.
  apply map_eq. intros k.
  destruct (decide (k ∈ key <$> range 10 maxLevel)) as [Hin | Hout].
  - unfold relabel at 1 3. by apply foldl_insert_lookup_base.
  - unfold relabel at 1. rewrite foldl_insert_lookup_notin by done.
    rewrite foldl_delete_lookup. unfold relabel.
    rewrite foldl_insert_lookup_notin by done.
    rewrite foldl_delete_lookup. by case_decide.
Qed.

(** [updateSpellLevelsConfig] in terms of [relabel]. *)
Lemma updateSpellLevelsConfig_eq (maxLevel : Z) (h : Host) :
  updateSpellLevelsConfig maxLevel h
  = labels ← spellLevels h;
    Some {| SPELL_SLOT_TABLE := SPELL_SLOT_TABLE h;
            spellLevels := Some (relabel pretty maxLevel labels);
            translations :=
              (λ slots, Some (relabel slot_key maxLevel (default ∅ slots)))
                <$> translations h;
            spell_model := spell_model h |}.
Proof.
  unfold updateSpellLevelsConfig. destruct (spellLevels h) as [labels |]; [| done].
  cbn. f_equal. f_equal.
  - by rewrite install_fst, purge_fst.
  - rewrite install_snd, purge_snd. cbn.
    by destruct (translations h) as [[slots |] |].
Qed.

End Labels.

(** ** Rows and cells under the patch *)

Section Rows.

Lemma push_zeros_app (k : nat) (row : list Z) :
  push_zeros k row = row ++ replicate k 0.
Proof.
  revert row. induction k as [| k IH]; intros row; cbn [push_zeros replicate].
  - by rewrite app_nil_r.
  - by rewrite IH, <- app_assoc.
Qed.

Lemma extend_row_app (row : list Z) (n : Z) :
  extend_row row n = row ++ replicate (Z.to_nat n - length row) 0.
Proof. unfold extend_row. rewrite push_zeros_app. do 2 f_equal. lia. Qed.

Lemma length_write_row (sl s : Z) (row : list Z) :
  1 ≤ sl → length (write_row sl s row) = (length row `max` Z.to_nat sl)%nat.
Proof.
  intros Hsl. unfold write_row.
  rewrite length_insert, extend_row_app, length_app, length_replicate. lia.
Qed.

Lemma write_row_lookup (sl s : Z) (row : list Z) (j : nat) :
  1 ≤ sl →
  write_row sl s row !! j
  = if decide (j = Z.to_nat (sl - 1)) then Some s
    else if decide (j < length row)%nat then row !! j
    else if decide (j < Z.to_nat (sl - 1))%nat then Some 0
    else None.
Proof.
  intros Hsl. unfold write_row. rewrite extend_row_app.
  destruct (decide (j = Z.to_nat (sl - 1))) as [-> | Hne].
  - apply list_lookup_insert_eq. rewrite length_app, length_replicate. lia.
  - rewrite list_lookup_insert_ne by done.
    destruct (decide (j < length row)%nat) as [Hlt | Hge].
    + by rewrite lookup_app_l.
    + rewrite lookup_app_r by lia.
      destruct (decide (j < Z.to_nat (sl - 1))%nat) as [Hlt' | Hge'].
      * apply lookup_replicate_2. lia.
      * apply lookup_ge_None. rewrite length_replicate. lia.
Qed.

(** One pass of the inner loop body, seen from row [i]. *)
Lemma patch_cell_lookup (sl s : Z) (t : Table) (cl : Z) (i : nat) :
  patch_cell sl s t cl !! i
  = (if decide (Z.of_nat i + 1 = cl) then write_row sl s else id) <$> t !! i.
Proof.
  unfold patch_cell, index.
  destruct (Z.ltb_spec (cl - 1) 0) as [Hneg | Hpos].
  { rewrite decide_False by lia. by destruct (t !! i). }
  destruct (t !! Z.to_nat (cl - 1)) as [row |] eqn:Hrow.
  - destruct (decide (Z.of_nat i + 1 = cl)) as [Heq | Hne].
    + replace (Z.to_nat (cl - 1)) with i in * by lia.
      rewrite Hrow. cbn. apply list_lookup_insert_eq.
      by eapply lookup_lt_Some.
    + rewrite list_lookup_insert_ne by lia. by destruct (t !! i).
  - destruct (decide (Z.of_nat i + 1 = cl)) as [Heq | Hne].
    + replace (Z.to_nat (cl - 1)) with i in * by lia. by rewrite Hrow.
    + by destruct (t !! i).
Qed.

(** The inner loop over character levels that are all different. *)
Lemma patch_cells_lookup (sl s : Z) (l : list Z) (t : Table) (i : nat) :
  NoDup l →
  foldl (patch_cell sl s) t l !! i
  = (if decide (Z.of_nat i + 1 ∈ l) then write_row sl s else id) <$> t !! i.
Proof.
  intros Hnd. revert t. induction Hnd as [| a l Ha Hnd IH]; intros t; cbn [foldl].
  - rewrite decide_False by apply not_elem_of_nil. by destruct (t !! i).
  - rewrite IH, patch_cell_lookup.
    destruct (decide (Z.of_nat i + 1 = a)) as [<- | Hne].
    + rewrite decide_False by done.
      rewrite decide_True by (apply elem_of_cons; by left).
      by destruct (t !! i).
    + destruct (decide (Z.of_nat i + 1 ∈ l)) as [Hin | Hout].
      * rewrite decide_True by (apply elem_of_cons; by right).
        by destruct (t !! i).
      * rewrite decide_False by (rewrite elem_of_cons; by intros [? | ?]).
        by destruct (t !! i).
Qed.

(** One pass of the outer loop body, seen from row [i]. *)
Lemma patch_level_lookup (config : Config) (t : Table) (sl : Z) (i : nat) :
  patch_level config t sl !! i = (λ row, tier_on_row config i row sl) <$> t !! i.
Proof.
  unfold patch_level, tier_on_row, tier_write. cbv zeta.
  destruct (strict_eq _ _ || strict_eq _ _) eqn:Hen; cbn [negb].
  - destruct (level_config config sl) as [rule |] eqn:Hrule; [| done].
    cbn [mbind option_bind].
    rewrite patch_cells_lookup by apply NoDup_seqZ.
    case_bool_decide as Hr.
    + rewrite decide_True by (by apply elem_of_range). done.
    + rewrite decide_False by (by rewrite elem_of_range).
      by destruct (t !! i).
  - by destruct (t !! i).
Qed.

Lemma patch_levels_lookup (config : Config) (l : list Z) (t : Table) (i : nat) :
  foldl (patch_level config) t l !! i
  = (λ row, foldl (tier_on_row config i) row l) <$> t !! i.
Proof.
  revert t. induction l as [| a l IH]; intros t; cbn [foldl].
  - by destruct (t !! i).
  - rewrite IH, patch_level_lookup. by destruct (t !! i).
Qed.

(** The patched table, row by row. *)
Lemma patch_table_lookup (config : Config) (t : Table) (i : nat) :
  patch_table config t !! i
  = (λ row, foldl (tier_on_row config i) row (range 10 (maxSpellLevel config)))
      <$> t !! i.
Proof. apply patch_levels_lookup. Qed.

Lemma length_patch_table (config : Config) (t : Table) :
  length (patch_table config t) = length t.
Proof.
  destruct (Nat.lt_trichotomy (length (patch_table config t)) (length t))
    as [Hlt | [Heq | Hgt]]; [exfalso | done | exfalso].
  - destruct (lookup_lt_is_Some_2 t _ Hlt) as [row Hrow].
    pose proof (patch_table_lookup config t (length (patch_table config t))) as Hl.
    rewrite Hrow, lookup_ge_None_2 in Hl by lia. done.
  - destruct (lookup_lt_is_Some_2 (patch_table config t) _ Hgt) as [row Hrow].
    rewrite patch_table_lookup, lookup_ge_None_2 in Hrow by lia. done.
Qed.

Context (config : Config) (i : nat).

(** A cell that exists and that no tier of [l] assigns keeps its
    value. *)
Lemma tiers_keep (l : list Z) (row : list Z) (j : nat) :
  Forall (λ sl, 1 ≤ sl) l →
  (∀ sl, sl ∈ l → is_Some (tier_write config sl i) → Z.to_nat (sl - 1) ≠ j) →
  (j < length row)%nat →
  foldl (tier_on_row config i) row l !! j = row !! j.
Proof.
  intros Hpos. revert row.
  induction Hpos as [| a l Ha Hpos IH]; intros row Hfree Hj; cbn [foldl]; [done |].
  rewrite IH.
  - unfold tier_on_row. destruct (tier_write config a i) as [s |] eqn:Hw; [| done].
    assert (j ≠ Z.to_nat (a - 1)) as Hne.
    { intros ->. eapply Hfree; [by left | by rewrite Hw | done]. }
    rewrite write_row_lookup by done.
    rewrite decide_False by done. by rewrite decide_True.
  - intros sl Hsl. apply Hfree. by right.
  - unfold tier_on_row. destruct (tier_write config a i); [| done].
    rewrite length_write_row by done. lia.
Qed.

Lemma tiers_grow (l : list Z) (row : list Z) :
  Forall (λ sl, 1 ≤ sl) l →
  (length row ≤ length (foldl (tier_on_row config i) row l))%nat.
Proof.
  intros Hpos. revert row.
  induction Hpos as [| a l Ha Hpos IH]; intros row; cbn [foldl]; [done |].
  etrans; [| apply IH].
  unfold tier_on_row. destruct (tier_write config a i); [| done].
  rewrite length_write_row by done. lia.
Qed.

(** A cell added by padding and assigned by no tier of [l] holds 0. *)
Lemma tiers_pad (l : list Z) (row : list Z) (j : nat) :
  Forall (λ sl, 1 ≤ sl) l →
  (∀ sl, sl ∈ l → is_Some (tier_write config sl i) → Z.to_nat (sl - 1) ≠ j) →
  (length row ≤ j < length (foldl (tier_on_row config i) row l))%nat →
  foldl (tier_on_row config i) row l !! j = Some 0.
Proof.
  intros Hpos. revert row.
  induction Hpos as [| a l Ha Hpos IH]; intros row Hfree Hj; cbn [foldl] in *; [lia |].
  assert (∀ sl, sl ∈ l → is_Some (tier_write config sl i) → Z.to_nat (sl - 1) ≠ j)
    as Hfree' by (intros sl Hsl; apply Hfree; by right).
  destruct (decide (j < length (tier_on_row config i row a))%nat) as [Hlt | Hge].
  - rewrite tiers_keep by done.
    unfold tier_on_row in *. destruct (tier_write config a i) as [s |] eqn:Hw; [| lia].
    rewrite length_write_row in Hlt by done.
    assert (j ≠ Z.to_nat (a - 1)) as Hne.
    { intros ->. eapply Hfree; [by left | by rewrite Hw | done]. }
    rewrite write_row_lookup by done.
    rewrite decide_False by done.
    rewrite decide_False by lia.
    rewrite decide_True by lia. done.
  - apply IH; [done | lia].
Qed.

(** A cell assigned by a tier of [l] holds that tier's slot count. *)
Lemma tiers_assign (l : list Z) (row : list Z) (sl s : Z) :
  Forall (λ sl, 1 ≤ sl) l → NoDup l →
  sl ∈ l → tier_write config sl i = Some s →
  foldl (tier_on_row config i) row l !! Z.to_nat (sl - 1) = Some s.
Proof.
  intros Hpos Hnd. revert row.
  induction Hnd as [| a l Ha Hnd IH]; intros row Hin Hw; cbn [foldl].
  { by apply elem_of_nil in Hin. }
  apply Forall_cons in Hpos as [Ha1 Hpos].
  destruct (decide (sl ∈ l)) as [Hl | Hl]; [by apply IH |].
  apply elem_of_cons in Hin as [-> | Hin]; [| done].
  rewrite tiers_keep; [| done | |].
  - unfold tier_on_row. rewrite Hw, write_row_lookup by done.
    by rewrite decide_True.
  - intros sl Hsl _ Heq. rewrite Forall_forall in Hpos.
    specialize (Hpos sl Hsl). assert (sl = a) by lia. by subst.
  - unfold tier_on_row. rewrite Hw, length_write_row by done. lia.
Qed.

End Rows.

(** ** [applyExpandedSpellSlots] as one step on the world *)

Section Apply.

Lemma deep_copy_id (t : Table) : deep_copy t = t.
Proof. unfold deep_copy. apply list_fmap_id. Qed.

Lemma applyExpandedSpellSlots_eq (w : World) :
  applyExpandedSpellSlots w
  = original ← snapshot_of w;
    labels ← spellLevels (host w);
    Some (applied w original labels).
Proof.
  unfold applyExpandedSpellSlots, snapshot_of. cbv zeta.
  destruct (originalSpellSlotTable w) as [t |];
    [| destruct (SPELL_SLOT_TABLE (host w)) as [t |]; [| done]];
    cbn [mbind option_bind fmap option_fmap option_map];
    rewrite updateSpellLevelsConfig_eq; cbn; rewrite ?deep_copy_id;
    by destruct (spellLevels (host w)).
Qed.

Lemma applied_fixed (w : World) (original : Table) (labels : gmap string string) :
  applyExpandedSpellSlots (applied w original labels)
  = Some (applied w original labels).
Proof.
  rewrite applyExpandedSpellSlots_eq. unfold snapshot_of. cbn.
  unfold applied. cbn. f_equal. f_equal. f_equal.
  - by rewrite relabel_idem.
  - destruct (translations (host w)) as [slots |]; cbn; [| done].
    by rewrite relabel_idem.
  - by destruct (spell_model (host w)).
Qed.

Lemma applyExpandedSpellSlots_is_Some (w : World) :
  is_Some (applyExpandedSpellSlots w) ↔ patchable w.
Proof.
  rewrite applyExpandedSpellSlots_eq. unfold patchable, snapshot_of.
  destruct (originalSpellSlotTable w) as [t0 |],
           (SPELL_SLOT_TABLE (host w)) as [t |],
           (spellLevels (host w)) as [labels |]; cbn;
    split; try (intros [x Hx]; discriminate); try (by eauto);
    try (intros [[Ha | Ha] Hb]; by (apply is_Some_None in Ha || apply is_Some_None in Hb));
    intros _; (split; [by (left; eauto) || (right; eauto) | eauto]).
Qed.

Lemma forall_tiers_positive (hi : Z) : Forall (λ sl, 1 ≤ sl) (range 10 hi).
Proof. apply Forall_forall. intros sl Hsl. apply elem_of_range in Hsl. lia. Qed.

(** A row of the patched table, cell by cell. *)
Lemma patch_table_row (config : Config) (t : Table) (i : nat) (row : list Z) :
  t !! i = Some row →
  ∃ row', patch_table config t !! i = Some row'
    ∧ (length row ≤ length row')%nat
    ∧ ∀ j, match target config i j with
           | Some s => row' !! j = Some s
           | None =>
               ((j < length row)%nat → row' !! j = row !! j)
               ∧ ((length row ≤ j < length row')%nat → row' !! j = Some 0)
           end.
Proof.
  intros Hrow. rewrite patch_table_lookup, Hrow. cbn.
  eexists. split; [done |].
  pose proof (forall_tiers_positive (maxSpellLevel config)) as Hpos.
  split; [by apply tiers_grow |].
  intros j. unfold target. cbv zeta.
  assert (∀ sl, sl ∈ range 10 (maxSpellLevel config) →
                Z.to_nat (sl - 1) = j → sl = Z.of_nat j + 1) as Hcol.
  { intros sl Hsl Hj. apply elem_of_range in Hsl. lia. }
  case_bool_decide as Hr.
  - destruct (tier_write config (Z.of_nat j + 1) i) as [s |] eqn:Hw.
    + pose proof (tiers_assign config i _ row _ s Hpos (NoDup_seqZ _ _)
                    (proj2 (elem_of_range _ _ _) Hr) Hw) as Ha.
      by replace (Z.to_nat (Z.of_nat j + 1 - 1)) with j in Ha by lia.
    + assert (∀ sl, sl ∈ range 10 (maxSpellLevel config) →
                    is_Some (tier_write config sl i) → Z.to_nat (sl - 1) ≠ j) as Hfree.
      { intros sl Hsl [s Hs] Hj. rewrite (Hcol sl Hsl Hj), Hw in Hs. done. }
      split; intros Hj; [by apply tiers_keep | by apply tiers_pad].
  - assert (∀ sl, sl ∈ range 10 (maxSpellLevel config) →
                  is_Some (tier_write config sl i) → Z.to_nat (sl - 1) ≠ j) as Hfree.
    { intros sl Hsl _ Hj. apply Hr. rewrite <- (Hcol sl Hsl Hj).
      by apply elem_of_range in Hsl. }
    split; intros Hj; [by apply tiers_keep | by apply tiers_pad].
Qed.

End Apply.

(** * The claims *)

(** ** The table patcher *)

(** C1.  For every configuration the settings can hold, on a host that is
    ready for the patch, [applyExpandedSpellSlots] succeeds, and calling it
    again changes nothing: the second call returns the very world the first
    one left, slot table included.  More generally, whatever happened to the
    live table in between, a later call with the same settings and the same
    snapshot [originalSpellSlotTable] rebuilds the same slot table, because
    the call starts from a copy of the snapshot. *)
Theorem apply_twice_same_table (w : World) :
  patchable w →
  ∃ w1,
    applyExpandedSpellSlots w = Some w1
    ∧ applyExpandedSpellSlots w1 = Some w1
    ∧ ∀ w2,
        settings w2 = settings w1 →
        originalSpellSlotTable w2 = originalSpellSlotTable w1 →
        is_Some (spellLevels (host w2)) →
        ∃ w3, applyExpandedSpellSlots w2 = Some w3
            ∧ SPELL_SLOT_TABLE (host w3) = SPELL_SLOT_TABLE (host w1)
            ∧ originalSpellSlotTable w3 = originalSpellSlotTable w1.
Proof.
  intros Hw. apply applyExpandedSpellSlots_is_Some in Hw as [w1 Hw1].
  exists w1. split; [done |].
  rewrite applyExpandedSpellSlots_eq in Hw1.
  destruct (snapshot_of w) as [original |]; [| done].
  destruct (spellLevels (host w)) as [labels |]; [| done].
  cbn in Hw1. injection Hw1 as <-.
  split; [apply applied_fixed |].
  intros w2 Hset Horig [labels2 Hlabels2].
  rewrite applyExpandedSpellSlots_eq. unfold snapshot_of.
  rewrite Horig, Hlabels2. cbn. eexists. split; [done |].
  unfold applied. cbn. by rewrite Hset.
Qed.

Lemma apply_twice_same_table_witness :
  patchable (boot GetThrows (ready_host sample_table))
  ∧ ∃ w1,
      applyExpandedSpellSlots (boot GetThrows (ready_host sample_table)) = Some w1
      ∧ applyExpandedSpellSlots w1 = Some w1.
Proof.
  assert (patchable (boot GetThrows (ready_host sample_table))) as Hp.
  { split; [right |]; by eexists. }
  split; [exact Hp |].
  destruct (apply_twice_same_table _ Hp) as (w1 & H1 & H2 & _).
  by exists w1.
Defined.

(** C7, as the code has it.  The call completes exactly when there is a
    table to start from (a snapshot already captured, or else the live
    [SPELL_SLOT_TABLE]) and a label map; with neither snapshot nor live
    table it throws.  When it completes, a missing cached-copy handle and
    a missing localization table are skipped and stay missing, and a
    present handle receives the new table. *)
Theorem missing_handle_is_skipped (w : World) :
  (is_Some (applyExpandedSpellSlots w) ↔ patchable w)
  ∧ (originalSpellSlotTable w = None → SPELL_SLOT_TABLE (host w) = None →
     applyExpandedSpellSlots w = None)
  ∧ (patchable w →
     ∃ w1, applyExpandedSpellSlots w = Some w1
       ∧ (spell_model (host w) = None → spell_model (host w1) = None)
       ∧ (translations (host w) = None → translations (host w1) = None)
       ∧ (is_Some (spell_model (host w)) →
          spell_model (host w1) = SPELL_SLOT_TABLE (host w1))).
Proof.
  split; [apply applyExpandedSpellSlots_is_Some |]. split.
  - intros Ho Ht. rewrite applyExpandedSpellSlots_eq. unfold snapshot_of.
    by rewrite Ho, Ht.
  - intros Hw. apply applyExpandedSpellSlots_is_Some in Hw as [w1 Hw1].
    exists w1. split; [done |].
    rewrite applyExpandedSpellSlots_eq in Hw1.
    destruct (snapshot_of w) as [original |]; [| done].
    destruct (spellLevels (host w)) as [labels |]; [| done].
    cbn in Hw1. injection Hw1 as <-. unfold applied. cbn.
    repeat split.
    + by intros ->.
    + by intros ->.
    + by intros [m ->].
Qed.

Lemma missing_handle_is_skipped_witness :
  patchable (boot GetThrows (bare_host sample_table))
  ∧ ∃ w1, applyExpandedSpellSlots (boot GetThrows (bare_host sample_table)) = Some w1
      ∧ spell_model (host w1) = None.
Proof.
  assert (patchable (boot GetThrows (bare_host sample_table))) as Hp.
  { split; [right |]; by eexists. }
  split; [exact Hp |].
  destruct (proj2 (proj2 (missing_handle_is_skipped _)) Hp) as (w1 & H1 & H2 & _).
  exists w1. split; [exact H1 | by apply H2].
Defined.

(** C7, counterexample: on the first call, with everything else in
    place, a missing [SPELL_SLOT_TABLE] is not skipped; the call throws. *)
Lemma missing_table_throws :
  applyExpandedSpellSlots
    (boot GetThrows {| SPELL_SLOT_TABLE := None; spellLevels := Some ∅;
                       translations := Some (Some ∅); spell_model := None |})
  = None.
Proof. reflexivity. Qed.

(** C10.  The patch keeps the number of rows: a character level without
    a row is passed over, and a row that exists is only ever extended.
    In such a row, a cell that an enabled tier assigns holds that tier's
    slot count; every other cell that was there keeps its value, and every
    other cell that was added by padding holds 0. *)
Theorem patch_creates_no_row (config : Config) (table : Table) :
  length (patch_table config table) = length table
  ∧ ∀ i,
      match table !! i with
      | None => patch_table config table !! i = None
      | Some row =>
          ∃ row', patch_table config table !! i = Some row'
            ∧ (length row ≤ length row')%nat
            ∧ ∀ j, match target config i j with
                   | Some s => row' !! j = Some s
                   | None =>
                       ((j < length row)%nat → row' !! j = row !! j)
                       ∧ ((length row ≤ j < length row')%nat → row' !! j = Some 0)
                   end
      end.
Proof.
  split; [apply length_patch_table |].
  intros i. destruct (table !! i) as [row |] eqn:Hrow.
  - by apply patch_table_row.
  - by rewrite patch_table_lookup, Hrow.
Qed.

Lemma patch_creates_no_row_witness :
  length (patch_table DEFAULT_CONFIG sample_table) = length sample_table
  ∧ ∃ row', patch_table DEFAULT_CONFIG sample_table !! 19%nat = Some row'
      ∧ row' !! 9%nat = Some 1
      ∧ row' !! 0%nat = Some 4.
Proof.
  destruct (patch_creates_no_row DEFAULT_CONFIG sample_table) as [Hlen Hrows].
  split; [exact Hlen |].
  specialize (Hrows 19%nat). cbn [sample_table lookup list_lookup] in Hrows.
  destruct Hrows as (row' & Hrow' & _ & Hcells).
  exists row'. split; [exact Hrow' |]. split.
  - exact (Hcells 9%nat).
  - pose proof (Hcells 0%nat) as [Hkeep _]. rewrite Hkeep; [reflexivity |].
    cbn. lia.
Defined.

(** A table of three rows: the tiers of the default configuration find no
    row for character levels 19 and 20, and nothing is written. *)
Example patch_short_table :
  patch_table DEFAULT_CONFIG [[2]; [3]; [4; 2]] = [[2]; [3]; [4; 2]].
Proof. reflexivity. Qed.

(** A short row is padded with zeros up to the assigned column. *)
Example patch_pads_row :
  patch_table DEFAULT_CONFIG (replicate 18 [] ++ [[1]; [4; 3]])
  = replicate 18 []
    ++ [[1; 0; 0; 0; 0; 0; 0; 0; 0; 1]; [4; 3; 0; 0; 0; 0; 0; 0; 0; 1; 1; 1]].
Proof. vm_compute. reflexivity. Qed.

(** ** The default scenario *)

Section Default.

Lemma default_level_10 :
  level_config DEFAULT_CONFIG 10
  = Some {| enabled := VBool true; characterLevel := VNum 19; slots := VNum 1 |}.
Proof. vm_compute. reflexivity. Qed.

Lemma default_level_11 :
  level_config DEFAULT_CONFIG 11
  = Some {| enabled := VBool true; characterLevel := VNum 20; slots := VNum 1 |}.
Proof. vm_compute. reflexivity. Qed.

Lemma default_level_12 :
  level_config DEFAULT_CONFIG 12
  = Some {| enabled := VBool true; characterLevel := VNum 20; slots := VNum 1 |}.
Proof. vm_compute. reflexivity. Qed.

Lemma default_tier_write_10 (i : nat) :
  tier_write DEFAULT_CONFIG 10 i
  = if bool_decide (i = 18 ∨ i = 19)%nat then Some 1 else None.
Proof.
  unfold tier_write. rewrite default_level_10. cbn.
  rewrite !parseInt_num. cbn. repeat case_bool_decide; done || lia.
Qed.

Lemma default_tier_write_11 (i : nat) :
  tier_write DEFAULT_CONFIG 11 i = if bool_decide (i = 19)%nat then Some 1 else None.
Proof.
  unfold tier_write. rewrite default_level_11. cbn.
  rewrite !parseInt_num. cbn. repeat case_bool_decide; done || lia.
Qed.

Lemma default_tier_write_12 (i : nat) :
  tier_write DEFAULT_CONFIG 12 i = if bool_decide (i = 19)%nat then Some 1 else None.
Proof.
  unfold tier_write. rewrite default_level_12. cbn.
  rewrite !parseInt_num. cbn. repeat case_bool_decide; done || lia.
Qed.

Lemma default_target (i j : nat) :
  target DEFAULT_CONFIG i j
  = if bool_decide ((i, j) ∈ default_cells) then Some 1 else None.
Proof.
  unfold target, default_cells. cbn [maxSpellLevel DEFAULT_CONFIG].
  case_bool_decide as Hj.
  - assert (j = 9 ∨ j = 10 ∨ j = 11)%nat as [-> | [-> | ->]] by lia.
    + change (Z.of_nat 9 + 1) with 10. rewrite default_tier_write_10.
      repeat case_bool_decide; try done.
      * exfalso. set_solver.
      * exfalso. set_solver.
    + change (Z.of_nat 10 + 1) with 11. rewrite default_tier_write_11.
      repeat case_bool_decide; try done.
      * exfalso. set_solver.
      * exfalso. set_solver.
    + change (Z.of_nat 11 + 1) with 12. rewrite default_tier_write_12.
      repeat case_bool_decide; try done.
      * exfalso. set_solver.
      * exfalso. set_solver.
  - rewrite bool_decide_eq_false_2; [done |].
    intros Hin. apply Hj.
    repeat (apply elem_of_cons in Hin as [[= -> ->] | Hin]; [lia |]).
    by apply elem_of_nil in Hin.
Qed.

Lemma default_rows (t : Table) (i : nat) :
  patch_table DEFAULT_CONFIG t !! i
  = (if bool_decide (i = 18)%nat then write_row 10 1
     else if bool_decide (i = 19)%nat
          then λ row, write_row 12 1 (write_row 11 1 (write_row 10 1 row))
          else id) <$> t !! i.
Proof.
  rewrite patch_table_lookup.
  change (range 10 (maxSpellLevel DEFAULT_CONFIG)) with [10; 11; 12].
  cbn [foldl]. unfold tier_on_row.
  rewrite default_tier_write_10, default_tier_write_11, default_tier_write_12.
  destruct (t !! i) as [row |]; [| done]. cbn. f_equal.
  repeat case_bool_decide; done || lia.
Qed.

End Default.

(** C2.  On a fresh install [getConfig] returns the default configuration:
    [maxSpellLevel] 12, tier 10 enabled from character level 19 with one
    slot, tiers 11 and 12 enabled from character level 20 with one slot.
    Applied at start-up to a table of 20 rows, it sets [table[18][9]],
    [table[19][9]], [table[19][10]] and [table[19][11]] to 1; the rows of
    character levels 1 to 18 are unchanged, and any other cell keeps its
    value or is a zero added as padding in rows 18 and 19. *)
Theorem default_scenario (w : World) (t : Table) :
  fresh_install (settings w) →
  originalSpellSlotTable w = None →
  SPELL_SLOT_TABLE (host w) = Some t →
  length t = 20%nat →
  is_Some (spellLevels (host w)) →
  let config := getConfig (settings w) in
  config = DEFAULT_CONFIG
  ∧ maxSpellLevel config = 12
  ∧ level_config config 10
    = Some {| enabled := VBool true; characterLevel := VNum 19; slots := VNum 1 |}
  ∧ level_config config 11
    = Some {| enabled := VBool true; characterLevel := VNum 20; slots := VNum 1 |}
  ∧ level_config config 12
    = Some {| enabled := VBool true; characterLevel := VNum 20; slots := VNum 1 |}
  ∧ ∃ w1 t1,
      applyExpandedSpellSlots w = Some w1
      ∧ SPELL_SLOT_TABLE (host w1) = Some t1
      ∧ length t1 = 20%nat
      ∧ cell t1 18 9 = Some 1 ∧ cell t1 19 9 = Some 1
      ∧ cell t1 19 10 = Some 1 ∧ cell t1 19 11 = Some 1
      ∧ (∀ i, (i < 18)%nat → t1 !! i = t !! i)
      ∧ (∀ i j, (i, j) ∉ default_cells →
           cell t1 i j = cell t i j
           ∨ (i = 18 ∨ i = 19)%nat ∧ cell t i j = None ∧ cell t1 i j = Some 0).
Proof.
  intros Hfresh Horig Ht Hlen [labels Hlabels]. cbv zeta.
  assert (getConfig (settings w) = DEFAULT_CONFIG) as Hcfg.
  { by destruct Hfresh as [-> | [-> | ->]]. }
  rewrite Hcfg. split; [done |]. split; [done |].
  split; [apply default_level_10 |].
  split; [apply default_level_11 |].
  split; [apply default_level_12 |].
  rewrite applyExpandedSpellSlots_eq. unfold snapshot_of.
  rewrite Horig, Ht, Hlabels. cbn. eexists _, _.
  split; [done |]. unfold applied. cbn. rewrite Hcfg.
  split; [done |]. split; [by rewrite length_patch_table |].
  assert (∀ i j, (i, j) ∈ default_cells →
                 cell (patch_table DEFAULT_CONFIG t) i j = Some 1) as Hset.
  { intros i j Hin.
    assert (i < length t)%nat as Hi.
    { rewrite Hlen. unfold default_cells in Hin.
      repeat (apply elem_of_cons in Hin as [[= -> ->] | Hin]; [lia |]).
      by apply elem_of_nil in Hin. }
    destruct (lookup_lt_is_Some_2 t i Hi) as [row Hrow].
    destruct (patch_table_row DEFAULT_CONFIG t i row Hrow) as (row' & Hrow' & _ & Hcells).
    specialize (Hcells j). rewrite default_target, bool_decide_eq_true_2 in Hcells by done.
    unfold cell. by rewrite Hrow'. }
  repeat (split; [apply Hset; unfold default_cells; set_solver |]).
  split.
  - intros i Hi. rewrite default_rows.
    rewrite !bool_decide_eq_false_2 by lia. by destruct (t !! i).
  - intros i j Hout. unfold cell.
    destruct (t !! i) as [row |] eqn:Hrow.
    + destruct (patch_table_row DEFAULT_CONFIG t i row Hrow)
        as (row' & Hrow' & Hlen' & Hcells).
      specialize (Hcells j).
      rewrite default_target, bool_decide_eq_false_2 in Hcells by done.
      destruct Hcells as [Hkeep Hpad]. rewrite Hrow'. cbn.
      destruct (decide (j < length row)%nat) as [Hlt | Hge]; [left; by apply Hkeep |].
      destruct (decide (j < length row')%nat) as [Hlt' | Hge'].
      * right. rewrite Hpad by lia. rewrite lookup_ge_None_2 by lia.
        split; [| done].
        destruct (decide (i < 18)%nat) as [Hi | Hi].
        { exfalso. rewrite default_rows, Hrow in Hrow'.
          rewrite !bool_decide_eq_false_2 in Hrow' by lia.
          cbn in Hrow'. injection Hrow' as <-. lia. }
        apply lookup_lt_Some in Hrow. lia.
      * left. by rewrite !lookup_ge_None_2 by lia.
    + left. by rewrite patch_table_lookup, Hrow.
Qed.

Lemma default_scenario_witness :
  ∃ w1 t1,
    applyExpandedSpellSlots (boot GetThrows (ready_host sample_table)) = Some w1
    ∧ SPELL_SLOT_TABLE (host w1) = Some t1
    ∧ cell t1 18 9 = Some 1 ∧ cell t1 19 11 = Some 1.
Proof.
  destruct (default_scenario (boot GetThrows (ready_host sample_table)) sample_table)
    as (_ & _ & _ & _ & _ & w1 & t1 & H1 & H2 & _ & H3 & _ & _ & H4 & _).
  - by left.
  - reflexivity.
  - reflexivity.
  - reflexivity.
  - by eexists.
  - exists w1, t1. by repeat split.
Defined.

(** The default scenario, run on a table in the shape of the system's
    own. *)
Example default_scenario_run :
  (SPELL_SLOT_TABLE ∘ host) <$> applyExpandedSpellSlots (boot GetThrows (ready_host sample_table))
  = Some (Some (take 18 sample_table
                ++ [[4; 3; 3; 3; 3; 2; 1; 1; 1; 1];
                    [4; 3; 3; 3; 3; 2; 2; 1; 1; 1; 1; 1]])).
Proof. vm_compute. reflexivity. Qed.

(** ** Labels *)

(** C3.  For every tier [n] from 10 up, the label is the number [n], its
    ordinal suffix and [" Level"]; the suffix is "st", "nd" or "rd" for a
    last digit 1, 2 or 3 and "th" otherwise, except that the last two
    digits 11, 12 and 13 take "th".  [updateSpellLevelsConfig] installs that
    label for every tier of [10 .. maxLevel], in [spellLevels] and, when
    the localization table is there, under the key of the tier's slot
    label.  The eight tiers listed give the eight labels listed. *)
Theorem ordinal_label_installed :
  (∀ n, 10 ≤ n → level_label n = pretty n +:+ ordinal_suffix n +:+ " Level")
  ∧ (∀ maxLevel h labels n,
       spellLevels h = Some labels → 10 ≤ n ≤ maxLevel →
       ∃ h1 labels1,
         updateSpellLevelsConfig maxLevel h = Some h1
         ∧ spellLevels h1 = Some labels1
         ∧ labels1 !! pretty n = Some (pretty n +:+ ordinal_suffix n +:+ " Level")
         ∧ (is_Some (translations h) →
            ∃ slots1, SLOTS (translations h1) = Some slots1
              ∧ slots1 !! slot_key n
                = Some (pretty n +:+ ordinal_suffix n +:+ " Level")))
  ∧ level_label <$> [10; 11; 12; 13; 21; 22; 23; 111]
    = ["10th Level"; "11th Level"; "12th Level"; "13th Level";
       "21st Level"; "22nd Level"; "23rd Level"; "111th Level"].
Proof.
  assert (∀ n, 10 ≤ n → level_label n = pretty n +:+ ordinal_suffix n +:+ " Level")
    as Hlabel.
  { intros n Hn. unfold level_label.
    rewrite getOrdinalSuffix_spec by lia. apply string_app_assoc. }
  split; [exact Hlabel |]. split; [| by vm_compute].
  intros maxLevel h labels n Hlabels Hn.
  rewrite updateSpellLevelsConfig_eq, Hlabels. cbn.
  eexists _, _. split; [done |]. cbn. split; [done |].
  rewrite <- Hlabel by lia. split.
  - by apply (relabel_lookup_in pretty).
  - intros [slots ->]. cbn. eexists. split; [done |].
    by apply (relabel_lookup_in slot_key).
Qed.

Lemma ordinal_label_installed_witness :
  10 ≤ 21 ∧ level_label 21 = pretty 21 +:+ ordinal_suffix 21 +:+ " Level".
Proof.
  split; [lia |]. apply (proj1 ordinal_label_installed). lia.
Defined.

(** C9.  [updateSpellLevelsConfig] purges the tiers 10 to 99 and no
    other: for [maxLevel] up to 99, a tier of [10 .. 99] has its label
    afterwards exactly when it lies in [10 .. maxLevel], while the entry of
    any tier outside [10 .. 99], a stale label of tier 100 or more among
    them, is left as it was.  The same holds of the slot labels in the
    localization table, when that table is there. *)
Theorem purge_stops_at_99 (maxLevel : Z) (h : Host) (labels : gmap string string) :
  spellLevels h = Some labels →
  maxLevel ≤ 99 →
  ∃ h1 labels1,
    updateSpellLevelsConfig maxLevel h = Some h1
    ∧ spellLevels h1 = Some labels1
    ∧ (∀ k, 10 ≤ k ≤ 99 →
         labels1 !! pretty k
         = if bool_decide (k ≤ maxLevel) then Some (level_label k) else None)
    ∧ (∀ k, ¬ 10 ≤ k ≤ 99 → labels1 !! pretty k = labels !! pretty k)
    ∧ (translations h = None → translations h1 = None)
    ∧ (∀ slots, translations h = Some slots →
         ∃ slots1, translations h1 = Some (Some slots1)
           ∧ (∀ k, 10 ≤ k ≤ 99 →
                slots1 !! slot_key k
                = if bool_decide (k ≤ maxLevel) then Some (level_label k) else None)
           ∧ (∀ k, ¬ 10 ≤ k ≤ 99 →
                slots1 !! slot_key k = default ∅ slots !! slot_key k)).
Proof.
  intros Hlabels Hmax.
  rewrite updateSpellLevelsConfig_eq, Hlabels. cbn.
  eexists _, _. split; [done |]. cbn. split; [done |].
  assert (∀ (key : Z → string), Inj (=) (=) key → ∀ (m : gmap string string),
    (∀ k, 10 ≤ k ≤ 99 →
       relabel key maxLevel m !! key k
       = if bool_decide (k ≤ maxLevel) then Some (level_label k) else None)
    ∧ (∀ k, ¬ 10 ≤ k ≤ 99 → relabel key maxLevel m !! key k = m !! key k))
    as Hrelabel.
  { intros key Hinj m. split; intros k Hk.
    - case_bool_decide as Hle.
      + apply relabel_lookup_in; [done | lia].
      + rewrite relabel_lookup_out by (done || lia).
        by rewrite bool_decide_eq_true_2.
    - rewrite relabel_lookup_out by (done || lia).
      by rewrite bool_decide_eq_false_2. }
  split; [apply (Hrelabel pretty _) |].
  split; [apply (Hrelabel pretty _) |].
  split; [by intros -> |].
  intros slots ->. cbn. eexists. split; [done |].
  apply (Hrelabel slot_key _).
Qed.

Lemma purge_stops_at_99_witness :
  ∃ h1 labels1,
    updateSpellLevelsConfig 12 stale_host = Some h1
    ∧ spellLevels h1 = Some labels1
    ∧ labels1 !! pretty 15 = None
    ∧ labels1 !! pretty 100 = Some "100th Level".
Proof.
  destruct (purge_stops_at_99 12 stale_host
              (<["100" := "100th Level"]> (<["15" := "15th Level"]> ∅)))
    as (h1 & labels1 & H1 & H2 & H3 & H4 & _).
  - reflexivity.
  - lia.
  - exists h1, labels1. split; [exact H1 |]. split; [exact H2 |]. split.
    + rewrite (H3 15) by lia. reflexivity.
    + rewrite (H4 100) by lia. reflexivity.
Defined.

(** The stale label of tier 100 survives a relabelling for [maxLevel]
    12, the one of tier 15 does not. *)
Example purge_run :
  (λ h1, (spellLevels h1 ≫= (.!! "15"), spellLevels h1 ≫= (.!! "100"),
          spellLevels h1 ≫= (.!! "12")))
    <$> updateSpellLevelsConfig 12 stale_host
  = Some (None, Some "100th Level", Some "12th Level").
Proof. vm_compute. reflexivity. Qed.

(** ** The settings form *)

Section Form.

Lemma strict_eq_decide (a b : value) : strict_eq a b = bool_decide (a = b).
Proof.
  unfold strict_eq.
  destruct (decide (a = b)) as [-> | Hne].
  - rewrite bool_decide_eq_true_2 by done.
    destruct b as [| | [] | n | s]; cbn; try done.
    + apply Z.eqb_refl.
    + apply String.eqb_refl.
  - rewrite bool_decide_eq_false_2 by done.
    destruct a as [| | [] | n | s], b as [| | [] | n' | s']; cbn; try done.
    + apply Z.eqb_neq. congruence.
    + apply String.eqb_neq. congruence.
Qed.

Lemma slot_count_or_num (v : value) : parseInt v ||| 1 = slot_count v.
Proof.
  unfold slot_count, or_num. destruct (parseInt v) as [n |]; [| done].
  destruct (Z.eqb_spec n 0); case_bool_decide; done.
Qed.

Lemma level_config_lookup (config : Config) (n : Z) :
  level_config config n = levels config ≫= (.!! pretty n).
Proof.
  unfold level_config. cbn [ToString].
  by destruct (levels config ≫= (.!! pretty n)).
Qed.

Lemma getConfig_settings_set (config : Config) :
  getConfig (settings_set config) = config.
Proof. by destruct config. Qed.

Lemma elem_of_tier_keys (maxLevel : Z) (x : string) :
  x ∈ tier_keys maxLevel ↔ ∃ k, x = pretty k ∧ 10 ≤ k ≤ maxLevel.
Proof.
  unfold tier_keys. rewrite elem_of_list_to_set, list_elem_of_fmap.
  by setoid_rewrite elem_of_range.
Qed.

Lemma tier_keys_add (maxLevel : Z) :
  9 ≤ maxLevel →
  tier_keys (maxLevel + 1) = {[pretty (maxLevel + 1)]} ∪ tier_keys maxLevel.
Proof.
  intros Hmax. apply set_eq. intros x.
  rewrite elem_of_union, elem_of_singleton, !elem_of_tier_keys. split.
  - intros (k & -> & Hk). destruct (decide (k = maxLevel + 1)) as [-> | Hne].
    + by left.
    + right. exists k. split; [done | lia].
  - intros [-> | (k & -> & Hk)].
    + exists (maxLevel + 1). split; [done | lia].
    + exists k. split; [done | lia].
Qed.

Lemma tier_keys_remove_top (maxLevel : Z) :
  tier_keys maxLevel ∖ {[pretty maxLevel]} = tier_keys (maxLevel - 1).
Proof.
  apply set_eq. intros x.
  rewrite elem_of_difference, elem_of_singleton, !elem_of_tier_keys. split.
  - intros [(k & -> & Hk) Hne]. exists k. split; [done |].
    assert (k ≠ maxLevel) by congruence. lia.
  - intros (k & -> & Hk). split.
    + exists k. split; [done | lia].
    + intros Heq. apply (inj pretty) in Heq. lia.
Qed.

Lemma tier_keys_remove_above (maxLevel level : Z) :
  maxLevel < level → tier_keys maxLevel ∖ {[pretty level]} = tier_keys maxLevel.
Proof.
  intros Hlevel. apply set_eq. intros x.
  rewrite elem_of_difference, elem_of_singleton, !elem_of_tier_keys. split.
  - by intros [? _].
  - intros (k & -> & Hk). split.
    + exists k. split; [done | lia].
    + intros Heq. apply (inj pretty) in Heq. lia.
Qed.

Lemma submitted_levels (formData : gmap string value) (l : list Z)
    (lv : gmap string LevelRule) :
  foldl (submit_level formData) lv l
  = foldl (λ m level, <[pretty level := submitted_rule formData level]> m) lv l.
Proof. reflexivity. Qed.

(** The configuration [_updateObject] saves holds, for each tier of
    [10 .. maxSpellLevel], the rule built from the form data, and no
    other rule. *)
Lemma submitted_config_lookup (cur : Config) (formData : gmap string value) (level : Z) :
  10 ≤ level ≤ maxSpellLevel cur →
  level_config (submitted_config cur formData) level
  = Some (submitted_rule formData level).
Proof.
  intros Hlevel. rewrite level_config_lookup. unfold submitted_config. cbn.
  rewrite submitted_levels.
  apply (foldl_insert_lookup_in pretty (submitted_rule formData)).
  by apply elem_of_range.
Qed.

Lemma submitted_config_exact (cur : Config) (formData : gmap string value) :
  tiers_exact (submitted_config cur formData).
Proof.
  eexists. split; [done |]. cbn. rewrite submitted_levels.
  rewrite (foldl_insert_dom pretty (submitted_rule formData)).
  rewrite dom_empty_L. unfold tier_keys. set_solver.
Qed.

End Form.

(** C4.  [_removeLevel(level)] leaves the world as it is when
    [level <= 10], whatever [maxSpellLevel] is.  For [level > 10] it saves a
    configuration with the rule of that tier deleted, with [maxSpellLevel]
    lowered by 1 exactly when [level] equals it, and with the rule of every
    other tier left under its own number. *)
Theorem remove_level_spec (level : Z) (w : World) :
  (level ≤ 10 → _removeLevel level w = Some w)
  ∧ (10 < level →
     ∀ lv, levels (getConfig (settings w)) = Some lv →
     ∃ w1,
       _removeLevel level w = Some w1
       ∧ levels (getConfig (settings w1)) = Some (delete (pretty level) lv)
       ∧ level_config (getConfig (settings w1)) level = None
       ∧ maxSpellLevel (getConfig (settings w1))
         = (if bool_decide (level = maxSpellLevel (getConfig (settings w)))
            then maxSpellLevel (getConfig (settings w)) - 1
            else maxSpellLevel (getConfig (settings w)))
       ∧ (∀ k, k ≠ level →
            level_config (getConfig (settings w1)) k
            = level_config (getConfig (settings w)) k)
       ∧ (∀ key, key ≠ pretty level → delete (pretty level) lv !! key = lv !! key)).
Proof.
  split.
  - intros Hlevel. unfold _removeLevel. cbv zeta.
    destruct (Z.leb_spec level 10); [done | lia].
  - intros Hlevel lv Hlv. unfold _removeLevel. cbv zeta.
    destruct (Z.leb_spec level 10); [lia |].
    rewrite Hlv. cbn. eexists. split; [done |]. cbn.
    split; [done |]. split.
    + rewrite level_config_lookup. cbn. apply lookup_delete_eq.
    + split.
      * destruct (Z.eqb_spec level (maxSpellLevel (getConfig (settings w))));
          case_bool_decide; lia.
      * split.
        -- intros k Hk. rewrite !level_config_lookup, Hlv. cbn.
           apply lookup_delete_ne. intros Heq. by apply (inj pretty) in Heq.
        -- intros key Hkey. by apply lookup_delete_ne.
Qed.

Lemma remove_level_spec_witness :
  _removeLevel 10 fresh_world = Some fresh_world
  ∧ ∃ w1, _removeLevel 12 fresh_world = Some w1
      ∧ maxSpellLevel (getConfig (settings w1)) = 11
      ∧ level_config (getConfig (settings w1)) 12 = None.
Proof.
  split.
  - apply (proj1 (remove_level_spec 10 _)). lia.
  - destruct (proj2 (remove_level_spec 12 fresh_world) ltac:(lia) _ eq_refl)
      as (w1 & H1 & _ & H2 & H3 & _).
    exists w1. split; [exact H1 |]. split; [| exact H2].
    rewrite H3. reflexivity.
Defined.

(** C8, as the code has it.  The configuration saved by a form
    submission holds a rule for exactly the tiers of [10 .. maxSpellLevel];
    [getConfig] hands back a saved configuration as it was saved; adding a
    tier keeps the property when [maxSpellLevel] is 9 or more, and so does
    [_removeLevel] for a tier of 10 or less, for the top tier and for a
    tier above it. *)
Theorem tiers_exact_maintained :
  (∀ formData w, tiers_exact (getConfig (settings (_updateObject formData w))))
  ∧ (∀ config, getConfig (settings_set config) = config)
  ∧ (∀ w,
       tiers_exact (getConfig (settings w)) →
       9 ≤ maxSpellLevel (getConfig (settings w)) →
       ∃ w1, _addLevel w = Some w1 ∧ tiers_exact (getConfig (settings w1)))
  ∧ (∀ level w,
       tiers_exact (getConfig (settings w)) →
       level ≤ 10 ∨ maxSpellLevel (getConfig (settings w)) ≤ level →
       ∃ w1, _removeLevel level w = Some w1 ∧ tiers_exact (getConfig (settings w1))).
Proof.
  split; [| split; [| split]].
  - intros formData w. unfold _updateObject. cbn [settings].
    rewrite getConfig_settings_set. apply submitted_config_exact.
  - apply getConfig_settings_set.
  - intros w (lv & Hlv & Hdom) Hmax. unfold _addLevel. cbv zeta.
    rewrite Hlv. cbn. eexists. split; [done |]. cbn.
    eexists. split; [done |]. cbn.
    by rewrite dom_insert_L, Hdom, tier_keys_add.
  - intros level w Hex Hlevel. unfold _removeLevel. cbv zeta.
    destruct (Z.leb_spec level 10) as [Hle | Hgt]; [by eexists |].
    destruct Hlevel as [? | Hmax]; [lia |].
    destruct Hex as (lv & Hlv & Hdom).
    rewrite Hlv. cbn. eexists. split; [done |]. cbn.
    eexists. split; [done |]. cbn. rewrite dom_delete_L, Hdom.
    destruct (Z.eqb_spec level (maxSpellLevel (getConfig (settings w)))) as [-> | Hne].
    + apply tier_keys_remove_top.
    + apply tier_keys_remove_above. lia.
Qed.

Lemma tiers_exact_default : tiers_exact DEFAULT_CONFIG.
Proof.
  eexists. split; [done |]. apply set_eq. intros x.
  rewrite elem_of_tier_keys, elem_of_dom. cbn.
  rewrite !lookup_insert, lookup_empty. split.
  - intros [rule Hrule]. repeat case_decide; subst; try done.
    + exists 10. by split.
    + exists 11. by split.
    + exists 12. by split.
  - intros (k & -> & Hk).
    assert (k = 10 ∨ k = 11 ∨ k = 12) as [-> | [-> | ->]] by lia; by eexists.
Qed.

Lemma tiers_exact_maintained_witness :
  ∃ w1, _addLevel fresh_world = Some w1
    ∧ tiers_exact (getConfig (settings w1)).
Proof.
  apply (proj1 (proj2 (proj2 tiers_exact_maintained))).
  - apply tiers_exact_default.
  - cbn. lia.
Defined.

(** C8, counterexample: removing tier 11 from the default configuration
    saves a configuration whose [maxSpellLevel] is still 12 and which has
    no rule for tier 11. *)
Lemma remove_middle_leaves_gap :
  ∃ w1,
    _removeLevel 11 fresh_world = Some w1
    ∧ maxSpellLevel (getConfig (settings w1)) = 12
    ∧ level_config (getConfig (settings w1)) 11 = None
    ∧ ¬ tiers_exact (getConfig (settings w1)).
Proof.
  eexists. split; [reflexivity |]. split; [reflexivity |].
  split; [by vm_compute |].
  intros (lv & Hlv & Hdom). cbn in Hlv. injection Hlv as <-.
  assert (pretty 11 ∈ tier_keys 12) as Hin.
  { apply elem_of_tier_keys. exists 11. split; [done | lia]. }
  cbn in Hdom. rewrite <- Hdom in Hin.
  apply elem_of_dom in Hin as [rule Hrule].
  by rewrite lookup_delete_eq in Hrule.
Qed.

(** ** Normalization of a rule's fields *)

Lemma tier_write_enabled (config : Config) (sl : Z) (rule : LevelRule) (i : nat) :
  level_config config sl = Some rule →
  enabled rule = VBool true ∨ enabled rule = VStr "true" →
  parseInt (characterLevel rule) ||| 20 ≤ Z.of_nat i + 1 ≤ 20 →
  tier_write config sl i = Some (parseInt (slots rule) ||| 1).
Proof.
  intros Hrule Hen Hreq. unfold tier_write. rewrite Hrule. cbn.
  rewrite !strict_eq_decide.
  destruct Hen as [-> | ->]; repeat case_bool_decide; cbn; done.
Qed.

(** C5, as the code has it.  The slot count in effect is the integer the
    rule's [slots] value parses to when that integer is not 0, and the
    default 1 when the value is absent, does not parse, or parses to 0.
    That count is the one written into the table for an enabled tier, the
    one shown by the form, and the one a form submission saves. *)
Theorem effective_slot_count :
  (∀ v n, parseInt v = Some n → n ≠ 0 → slot_count v = n)
  ∧ (∀ v, parseInt v = None ∨ parseInt v = Some 0 → slot_count v = 1)
  ∧ (∀ n, n ≠ 0 → slot_count (VNum n) = n)
  ∧ slot_count (VNum 0) = 1
  ∧ slot_count VUndef = 1
  ∧ (∀ config table sl rule i row,
       10 ≤ sl ≤ maxSpellLevel config →
       level_config config sl = Some rule →
       enabled rule = VBool true ∨ enabled rule = VStr "true" →
       parseInt (characterLevel rule) ||| 20 ≤ Z.of_nat i + 1 ≤ 20 →
       table !! i = Some row →
       cell (patch_table config table) i (Z.to_nat (sl - 1))
       = Some (slot_count (slots rule)))
  ∧ (∀ config level rule,
       level_config config level = Some rule →
       row_slots (form_row config level) = slot_count (slots rule))
  ∧ (∀ config level,
       level_config config level = None → row_slots (form_row config level) = 1)
  ∧ (∀ cur formData level,
       10 ≤ level ≤ maxSpellLevel cur →
       slots <$> level_config (submitted_config cur formData) level
       = Some (VNum (slot_count
                       (field formData ("levels." +:+ pretty level +:+ ".slots"))))).
Proof.
  assert (∀ v n, parseInt v = Some n → n ≠ 0 → slot_count v = n) as Hsome.
  { intros v n Hv Hn. unfold slot_count. rewrite Hv.
    by rewrite bool_decide_eq_false_2. }
  assert (∀ v, parseInt v = None ∨ parseInt v = Some 0 → slot_count v = 1) as Hnone.
  { intros v [Hv | Hv]; unfold slot_count; by rewrite Hv. }
  split; [exact Hsome |]. split; [exact Hnone |].
  split; [intros n Hn; apply Hsome; [apply parseInt_num | done] |].
  split; [done |]. split; [done |]. split; [| split; [| split]].
  - intros config table sl rule i row Hsl Hrule Hen Hreq Hrow.
    destruct (patch_table_row config table i row Hrow) as (row' & Hrow' & _ & Hcells).
    specialize (Hcells (Z.to_nat (sl - 1))). unfold target in Hcells.
    replace (Z.of_nat (Z.to_nat (sl - 1)) + 1) with sl in Hcells by lia.
    rewrite bool_decide_eq_true_2 in Hcells by done.
    rewrite (tier_write_enabled config sl rule i Hrule Hen Hreq) in Hcells.
    unfold cell. rewrite Hrow'. cbn. by rewrite <- slot_count_or_num.
  - intros config level rule Hrule. unfold form_row. rewrite Hrule. cbn.
    apply slot_count_or_num.
  - intros config level Hrule. unfold form_row. by rewrite Hrule.
  - intros cur formData level Hlevel.
    rewrite submitted_config_lookup by done. cbn.
    by rewrite slot_count_or_num.
Qed.

Lemma effective_slot_count_witness :
  slot_count (VStr "3") = 3
  ∧ slot_count (VStr "none") = 1
  ∧ cell (patch_table (one_tier (VBool true) (VNum 2)) sample_table) 19 9 = Some 2.
Proof.
  destruct effective_slot_count as (H1 & H2 & H3 & _ & _ & H4 & _).
  split; [| split].
  - apply (H1 (VStr "3") 3); [reflexivity | lia].
  - apply (H2 (VStr "none")). by left.
  - rewrite <- (H3 2) by lia.
    apply (H4 (one_tier (VBool true) (VNum 2)) sample_table 10
              {| enabled := VBool true; characterLevel := VNum 20; slots := VNum 2 |}
              19%nat [4; 3; 3; 3; 3; 2; 2; 1; 1]).
    + cbn. lia.
    + by vm_compute.
    + by left.
    + vm_compute. split; discriminate.
    + reflexivity.
Defined.

(** C5, counterexample: a [slots] value of 0 parses as the integer 0,
    yet an enabled tier with that value is granted one slot, in the table
    and in the form alike. *)
Lemma zero_slots_grant_one :
  parseInt (VNum 0) = Some 0
  ∧ parseInt (VStr "0") = Some 0
  ∧ cell (patch_table (one_tier (VBool true) (VNum 0)) sample_table) 19 9 = Some 1
  ∧ cell (patch_table (one_tier (VBool true) (VNum 0)) sample_table) 19 9 ≠ Some 0
  ∧ row_slots (form_row (one_tier (VBool true) (VNum 0)) 10) = 1
  ∧ slots <$> level_config
                (submitted_config (one_tier (VBool true) (VNum 1))
                                  (<["levels.10.slots" := VStr "0"]> ∅)) 10
    = Some (VNum 1).
Proof. by vm_compute. Qed.

(** C6, as the code has it.  A form submission saves [enabled] as a
    boolean that is true exactly for the submitted values [true], ["on"]
    and ["true"].  The table patch and the form display read a stored flag
    as enabled exactly when it is [true] or ["true"]: a tier whose flag is
    anything else, the string ["on"] included, is passed over by the patch
    and shown as disabled. *)
Theorem enabled_flag_normalized :
  (∀ cur formData level,
     10 ≤ level ≤ maxSpellLevel cur →
     enabled <$> level_config (submitted_config cur formData) level
     = Some (VBool (bool_decide
         (field formData ("levels." +:+ pretty level +:+ ".enabled")
          ∈ [VBool true; VStr "on"; VStr "true"]))))
  ∧ (∀ config table sl,
       enabled_of (level_config config sl) ∉ [VBool true; VStr "true"] →
       patch_level config table sl = table)
  ∧ (∀ config table sl rule,
       level_config config sl = Some rule →
       enabled rule ∈ [VBool true; VStr "true"] →
       patch_level config table sl
       = foldl (patch_cell sl (parseInt (slots rule) ||| 1)) table
               (range (parseInt (characterLevel rule) ||| 20) 20))
  ∧ (∀ config level,
       row_enabled (form_row config level)
       = bool_decide (enabled_of (level_config config level)
                      ∈ [VBool true; VStr "true"])).
Proof.
  split; [| split; [| split]].
  - intros cur formData level Hlevel.
    rewrite submitted_config_lookup by done. cbn. do 2 f_equal.
    rewrite !strict_eq_decide.
    set (v := field formData _).
    repeat case_bool_decide; subst; cbn; try done; exfalso; set_solver.
  - intros config table sl Hen. unfold patch_level. cbv zeta.
    rewrite !strict_eq_decide.
    repeat case_bool_decide; cbn; try done; exfalso; set_solver.
  - intros config table sl rule Hrule Hen. unfold patch_level. cbv zeta.
    rewrite Hrule. cbn [enabled_of]. rewrite !strict_eq_decide.
    repeat case_bool_decide; cbn; try done; exfalso; set_solver.
  - intros config level. unfold form_row. cbn [row_enabled].
    rewrite !strict_eq_decide.
    destruct (level_config config level) as [rule |]; cbn;
      repeat case_bool_decide; cbn; try done; exfalso; set_solver.
Qed.

Lemma enabled_flag_normalized_witness :
  patch_level (one_tier (VStr "off") (VNum 1)) sample_table 10 = sample_table
  ∧ enabled <$> level_config
                  (submitted_config (one_tier (VBool false) (VNum 1))
                                    (<["levels.10.enabled" := VStr "on"]> ∅)) 10
    = Some (VBool true).
Proof.
  destruct enabled_flag_normalized as (H1 & H2 & _).
  split.
  - apply H2. vm_compute. intros Hin.
    repeat (apply elem_of_cons in Hin as [Hin | Hin]; [discriminate |]).
    by apply elem_of_nil in Hin.
  - rewrite H1 by (cbn; lia). reflexivity.
Defined.

(** C6, counterexample: a stored flag ["on"] is not read as enabled by
    the table patch, which leaves the table as it was, nor by the form
    display. *)
Lemma stored_on_is_disabled :
  patch_table (one_tier (VStr "on") (VNum 1)) sample_table = sample_table
  ∧ cell (patch_table (one_tier (VStr "on") (VNum 1)) sample_table) 19 9 = None
  ∧ row_enabled (form_row (one_tier (VStr "on") (VNum 1)) 10) = false
  ∧ cell (patch_table (one_tier (VStr "true") (VNum 1)) sample_table) 19 9 = Some 1.
Proof. by vm_compute. Qed.

(** * Further properties of the script *)

(** ** The patch and the order of the tiers *)

Section Order.

Lemma write_row_comm (a b s s' : Z) (row : list Z) :
  1 ≤ a → 1 ≤ b → a ≠ b →
  write_row b s' (write_row a s row) = write_row a s (write_row b s' row).
Proof.
  intros Ha Hb Hab. apply list_eq. intros j.
  rewrite !write_row_lookup, !length_write_row by done.
  repeat case_decide; done || lia.
Qed.

Lemma write_row_idem (a s : Z) (row : list Z) :
  1 ≤ a → write_row a s (write_row a s row) = write_row a s row.
Proof.
  intros Ha. apply list_eq. intros j.
  rewrite !write_row_lookup, !length_write_row by done.
  repeat case_decide; done || lia.
Qed.

Context (config : Config) (i : nat).

Lemma tier_on_row_comm (row : list Z) (a b : Z) :
  1 ≤ a → 1 ≤ b →
  tier_on_row config i (tier_on_row config i row a) b
  = tier_on_row config i (tier_on_row config i row b) a.
Proof.
  intros Ha Hb. destruct (decide (a = b)) as [-> | Hab]; [done |].
  unfold tier_on_row.
  destruct (tier_write config a i), (tier_write config b i); try done.
  by apply write_row_comm.
Qed.

Lemma tier_on_row_idem (row : list Z) (a : Z) :
  1 ≤ a →
  tier_on_row config i (tier_on_row config i row a) a = tier_on_row config i row a.
Proof.
  intros Ha. unfold tier_on_row.
  destruct (tier_write config a i); [by apply write_row_idem | done].
Qed.

(** A tier processed after the tiers of [l] could as well have been
    processed before them. *)
Lemma tiers_move_front (l : list Z) (row : list Z) (a : Z) :
  Forall (λ sl, 1 ≤ sl) l → 1 ≤ a →
  tier_on_row config i (foldl (tier_on_row config i) row l) a
  = foldl (tier_on_row config i) (tier_on_row config i row a) l.
Proof.
  intros Hpos Ha. revert row.
  induction Hpos as [| b l Hb Hpos IH]; intros row; cbn [foldl]; [done |].
  by rewrite IH, tier_on_row_comm.
Qed.

Lemma tiers_twice (l : list Z) (row : list Z) :
  Forall (λ sl, 1 ≤ sl) l →
  foldl (tier_on_row config i) (foldl (tier_on_row config i) row l) l
  = foldl (tier_on_row config i) row l.
Proof.
  intros Hpos. revert row.
  induction Hpos as [| a l Ha Hpos IH]; intros row; cbn [foldl]; [done |].
  rewrite tiers_move_front by done. rewrite tier_on_row_idem by done.
  apply IH.
Qed.

End Order.

Lemma patch_level_comm (config : Config) (t : Table) (a b : Z) :
  1 ≤ a → 1 ≤ b →
  patch_level config (patch_level config t a) b
  = patch_level config (patch_level config t b) a.
Proof.
  intros Ha Hb. apply list_eq. intros i.
  rewrite !patch_level_lookup.
  destruct (t !! i) as [row |]; [| done]. cbn.
  by rewrite tier_on_row_comm.
Qed.

(** X1.  The patched table does not depend on the order in which the
    tiers are gone through: the outer loop run over any rearrangement of
    [10 .. maxSpellLevel] gives the table the script computes. *)
Theorem patch_order_irrelevant (config : Config) (t : Table) (l : list Z) :
  l ≡ₚ range 10 (maxSpellLevel config) →
  foldl (patch_level config) t l = patch_table config t.
Proof.
  intros Hperm. unfold patch_table.
  pose proof (forall_tiers_positive (maxSpellLevel config)) as Hpos.
  rewrite <- Hperm in Hpos. revert t.
  induction Hperm as [| x l l' Hperm IH | x y l | l l' l'' H1 IH1 H2 IH2];
    intros t; cbn [foldl].
  - done.
  - apply IH. by apply Forall_cons in Hpos as [_ ?].
  - apply Forall_cons in Hpos as [Hy Hpos]. apply Forall_cons in Hpos as [Hx _].
    by rewrite patch_level_comm.
  - rewrite IH1 by done. apply IH2. by rewrite <- H1.
Qed.

Lemma patch_order_irrelevant_witness :
  foldl (patch_level DEFAULT_CONFIG) sample_table [12; 10; 11]
  = patch_table DEFAULT_CONFIG sample_table.
Proof.
  apply patch_order_irrelevant.
  change (range 10 (maxSpellLevel DEFAULT_CONFIG)) with [10; 11; 12].
  etrans; [apply Permutation_swap |]. apply Permutation_skip, Permutation_swap.
Defined.

(** X2.  Running the two loops again over a table that is already
    patched, without the reset in between, changes nothing. *)
Theorem patch_table_idempotent (config : Config) (t : Table) :
  patch_table config (patch_table config t) = patch_table config t.
Proof.
  apply list_eq. intros i. rewrite !patch_table_lookup.
  destruct (t !! i) as [row |]; [| done]. cbn.
  by rewrite tiers_twice by apply forall_tiers_positive.
Qed.

(** X3.  The patch leaves alone what is not its own: the rows of
    character levels above 20, the cells of spell levels 1 to 9, and the
    cells of spell levels above [maxSpellLevel] keep the values they
    had. *)
Theorem patch_leaves_base_slots (config : Config) (t : Table) :
  (∀ i, (20 ≤ i)%nat → patch_table config t !! i = t !! i)
  ∧ (∀ i j v,
       (j < 9)%nat ∨ maxSpellLevel config ≤ Z.of_nat j →
       cell t i j = Some v →
       cell (patch_table config t) i j = Some v).
Proof.
  split.
  - intros i Hi. rewrite patch_table_lookup.
    destruct (t !! i) as [row |]; [| done]. cbn. f_equal.
    induction (range 10 (maxSpellLevel config)) as [| a l IH]; cbn [foldl]; [done |].
    replace (tier_on_row config i row a) with row; [done |].
    unfold tier_on_row, tier_write. cbv zeta.
    destruct (strict_eq _ _ || strict_eq _ _); [| done].
    destruct (level_config config a) as [rule |]; [| done]. cbn.
    rewrite bool_decide_eq_false_2; [done | lia].
  - intros i j v Hj Hcell. unfold cell in *.
    destruct (t !! i) as [row |] eqn:Hrow; [| done]. cbn in Hcell.
    destruct (patch_table_row config t i row Hrow) as (row' & Hrow' & _ & Hcells).
    specialize (Hcells j). unfold target in Hcells.
    rewrite bool_decide_eq_false_2 in Hcells by lia.
    destruct Hcells as [Hkeep _]. rewrite Hrow'. cbn.
    rewrite Hkeep; [done |]. by eapply lookup_lt_Some.
Qed.

Lemma patch_leaves_base_slots_witness :
  cell (patch_table DEFAULT_CONFIG sample_table) 19 8 = Some 1
  ∧ cell (patch_table DEFAULT_CONFIG sample_table) 19 0 = Some 4.
Proof.
  split.
  - apply (proj2 (patch_leaves_base_slots DEFAULT_CONFIG sample_table)).
    + left. lia.
    + reflexivity.
  - apply (proj2 (patch_leaves_base_slots DEFAULT_CONFIG sample_table)).
    + left. lia.
    + reflexivity.
Defined.

(** X4.  Patches never compound: once a call has captured the
    snapshot, the table any later call produces is the snapshot patched
    for the settings of that moment, whatever the settings and the live
    table were in between. *)
Theorem later_patch_from_snapshot (w w1 w2 : World) (t0 : Table) :
  snapshot_of w = Some t0 →
  applyExpandedSpellSlots w = Some w1 →
  originalSpellSlotTable w2 = originalSpellSlotTable w1 →
  is_Some (spellLevels (host w2)) →
  ∃ w3,
    applyExpandedSpellSlots w2 = Some w3
    ∧ SPELL_SLOT_TABLE (host w3) = Some (patch_table (getConfig (settings w2)) t0)
    ∧ originalSpellSlotTable w3 = Some t0.
Proof.
  intros Hsnap Hw1 Horig [labels2 Hlabels2].
  rewrite applyExpandedSpellSlots_eq, Hsnap in Hw1.
  destruct (spellLevels (host w)) as [labels |]; [| done].
  cbn in Hw1. injection Hw1 as <-. cbn in Horig.
  rewrite applyExpandedSpellSlots_eq. unfold snapshot_of.
  rewrite Horig, Hlabels2. cbn. by eexists.
Qed.

Lemma later_patch_from_snapshot_witness :
  ∃ w1 w3,
    applyExpandedSpellSlots fresh_world = Some w1
    ∧ applyExpandedSpellSlots (_updateObject ∅ w1) = Some w3
    ∧ SPELL_SLOT_TABLE (host w3) = Some sample_table.
Proof.
  assert (applyExpandedSpellSlots fresh_world
          = Some (applied fresh_world sample_table ∅)) as H1.
  { by rewrite applyExpandedSpellSlots_eq. }
  destruct (later_patch_from_snapshot fresh_world _
              (_updateObject ∅ (applied fresh_world sample_table ∅))
              sample_table eq_refl H1 eq_refl)
    as (w3 & H3 & Ht & _).
  - by eexists.
  - eexists _, w3. split; [exact H1 |]. split; [exact H3 |].
    rewrite Ht. f_equal.
Defined.

(** ** Ordinal suffixes of all integers *)

Lemma suffix_choice_nonpositive :
  forallb (λ v, String.eqb (chosen_suffix v) "th") (seqZ (-99) 100) = true.
Proof. vm_compute. reflexivity. Qed.

(** X5.  [getOrdinalSuffix] on every integer: from 0 down the suffix is
    always "th" (the remainder of a negative number is negative and indexes
    nothing); above 0 it is the suffix of the last digit, with 11 to 13 of
    the last two digits taking "th". *)
Theorem getOrdinalSuffix_total (n : Z) :
  getOrdinalSuffix n
  = pretty n +:+ (if bool_decide (n ≤ 0) then "th" else ordinal_suffix n).
Proof.
  case_bool_decide as Hn; [| apply getOrdinalSuffix_spec; lia].
  unfold getOrdinalSuffix, concat_num. cbv zeta.
  change (rem n 100) with (Z.rem n 100).
  fold (chosen_suffix (Z.rem n 100)). f_equal.
  apply String.eqb_eq.
  pose proof suffix_choice_nonpositive as Hall. rewrite forallb_forall in Hall.
  apply Hall. apply list_elem_of_In, elem_of_seqZ.
  replace n with (- - n) by lia. rewrite Z.rem_opp_l by lia.
  pose proof (Z.rem_bound_pos (- n) 100 ltac:(lia) ltac:(lia)). lia.
Qed.

(** ** Relabelling *)

Section Relabel.

Lemma relabel_lookup_free (key : Z → string) (maxLevel : Z)
    (m : gmap string string) (k : string) :
  k ∉ key <$> range 10 maxLevel →
  k ∉ key <$> range 10 99 →
  relabel key maxLevel m !! k = m !! k.
Proof.
  intros Hinstall Hpurge. unfold relabel.
  rewrite foldl_insert_lookup_notin by done.
  rewrite foldl_delete_lookup. by rewrite decide_False.
Qed.

(** Relabelling for a new maximum forgets a relabelling that stayed
    within the purged window. *)
Lemma relabel_shrink (key : Z → string) (M1 M2 : Z) (m : gmap string string) :
  M1 ≤ 99 → relabel key M2 (relabel key M1 m) = relabel key M2 m.
Proof.
  intros HM1. apply map_eq. intros k.
  destruct (decide (k ∈ key <$> range 10 M2)) as [Hin | Hout].
  - unfold relabel at 1 3. by apply foldl_insert_lookup_base.
  - unfold relabel at 1 3. rewrite !foldl_insert_lookup_notin by done.
    rewrite !foldl_delete_lookup. case_decide as Hpurge; [done |].
    apply relabel_lookup_free; [| done].
    intros Hin. apply Hpurge.
    apply list_elem_of_fmap in Hin as (b & -> & Hb).
    apply list_elem_of_fmap. exists b. split; [done |].
    apply elem_of_range in Hb. apply elem_of_range. lia.
Qed.

Lemma relabel_stale (key : Z → string) `{!Inj (=) (=) key}
    (M1 M2 : Z) (m : gmap string string) (k : Z) :
  M2 < k → 100 ≤ k ≤ M1 →
  relabel key M2 (relabel key M1 m) !! key k = Some (level_label k).
Proof.
  intros HM2 Hk.
  assert (¬ 10 ≤ k ≤ M2) as Hout by lia.
  rewrite (relabel_lookup_out key M2 _ k Hout).
  rewrite bool_decide_eq_false_2 by lia.
  apply relabel_lookup_in; [done | lia].
Qed.

End Relabel.

(** X6.  [updateSpellLevelsConfig] throws exactly when
    [CONFIG.DND5E.spellLevels] is missing.  When it returns, calling it
    again with the same maximum changes nothing; the slot table and the
    spellcasting model are untouched; and if the localization table is
    there, the slot-label namespace exists afterwards, created if need
    be. *)
Theorem relabelling_settles (maxLevel : Z) (h : Host) :
  (updateSpellLevelsConfig maxLevel h = None ↔ spellLevels h = None)
  ∧ ∀ h1,
      updateSpellLevelsConfig maxLevel h = Some h1 →
      updateSpellLevelsConfig maxLevel h1 = Some h1
      ∧ SPELL_SLOT_TABLE h1 = SPELL_SLOT_TABLE h
      ∧ spell_model h1 = spell_model h
      ∧ (is_Some (translations h) → is_Some (SLOTS (translations h1)))
      ∧ (translations h = None → translations h1 = None).
Proof.
  rewrite updateSpellLevelsConfig_eq. split.
  - destruct (spellLevels h); cbn; by split.
  - intros h1 Hh1. destruct (spellLevels h) as [labels |]; [| done].
    cbn in Hh1. injection Hh1 as <-.
    split; [| split; [done | split; [done | split]]].
    + rewrite updateSpellLevelsConfig_eq. cbn. f_equal. f_equal.
      * by rewrite relabel_idem.
      * destruct (translations h) as [slots |]; cbn; [| done].
        by rewrite relabel_idem.
    + intros [slots ->]. cbn. by eexists.
    + by intros ->.
Qed.

Lemma relabelling_settles_witness :
  ∃ h1, updateSpellLevelsConfig 12 stale_host = Some h1
    ∧ updateSpellLevelsConfig 12 h1 = Some h1.
Proof.
  destruct (updateSpellLevelsConfig 12 stale_host) as [h1 |] eqn:Hh1.
  - exists h1. split; [done |].
    by apply (proj2 (relabelling_settles 12 stale_host)).
  - apply (proj1 (relabelling_settles 12 stale_host)) in Hh1. discriminate.
Defined.

(** X7.  Lowering the maximum.  After a relabelling for [M1] that
    stayed within 99, a relabelling for [M2] gives what it would have given
    without the first: no label of a removed tier is left.  After a
    relabelling for an [M1] of 100 or more, the labels of the tiers from
    100 to [M1] outlive a relabelling for a lower [M2]. *)
Theorem relabelling_after_lowering (M1 M2 : Z) (h h1 : Host) :
  updateSpellLevelsConfig M1 h = Some h1 →
  (M1 ≤ 99 → updateSpellLevelsConfig M2 h1 = updateSpellLevelsConfig M2 h)
  ∧ (∀ k, M2 < k → 100 ≤ k ≤ M1 →
       ∃ h2 labels2,
         updateSpellLevelsConfig M2 h1 = Some h2
         ∧ spellLevels h2 = Some labels2
         ∧ labels2 !! pretty k = Some (level_label k)).
Proof.
  rewrite !updateSpellLevelsConfig_eq. intros Hh1.
  destruct (spellLevels h) as [labels |]; [| done].
  cbn in Hh1. injection Hh1 as <-. cbn. split.
  - intros HM1. f_equal. f_equal.
    + by rewrite relabel_shrink.
    + destruct (translations h) as [slots |]; cbn; [| done].
      by rewrite relabel_shrink.
  - intros k HM2 Hk. eexists _, _. split; [done |]. cbn. split; [done |].
    by apply (relabel_stale pretty).
Qed.

Lemma relabelling_after_lowering_witness :
  ∃ h1 h2 labels2,
    updateSpellLevelsConfig 101 (ready_host sample_table) = Some h1
    ∧ updateSpellLevelsConfig 12 h1 = Some h2
    ∧ spellLevels h2 = Some labels2
    ∧ labels2 !! pretty 101 = Some (level_label 101).
Proof.
  destruct (updateSpellLevelsConfig 101 (ready_host sample_table)) as [h1 |] eqn:Hh1.
  - destruct (proj2 (relabelling_after_lowering 101 12 _ h1 Hh1) 101)
      as (h2 & labels2 & H2 & H3 & H4); [lia | lia |].
    by exists h1, h2, labels2.
  - rewrite updateSpellLevelsConfig_eq in Hh1. discriminate.
Defined.

(** ** Lifecycle hooks *)

(** X8.  The [i18nInit] hook only relabels: it captures no snapshot and
    leaves the slot table alone.  The [setup] hook absorbs it: run after
    [i18nInit], [setup] gives what it gives without it, and run after
    [setup], [i18nInit] changes nothing. *)
Theorem i18nInit_absorbed (w : World) :
  (∀ w', i18nInit_hook w = Some w' →
     originalSpellSlotTable w' = originalSpellSlotTable w
     ∧ SPELL_SLOT_TABLE (host w') = SPELL_SLOT_TABLE (host w)
     ∧ setup_hook w' = setup_hook w)
  ∧ (∀ w1, setup_hook w = Some w1 → i18nInit_hook w1 = Some w1).
Proof.
  unfold i18nInit_hook, setup_hook. cbv zeta. split.
  - intros w' Hw'. rewrite updateSpellLevelsConfig_eq in Hw'.
    destruct (spellLevels (host w)) as [labels |] eqn:Hlabels; [| done].
    cbn in Hw'. injection Hw' as <-.
    split; [done |]. split; [done |].
    rewrite !applyExpandedSpellSlots_eq. unfold snapshot_of.
    cbn [originalSpellSlotTable host SPELL_SLOT_TABLE spellLevels].
    rewrite Hlabels.
    destruct (originalSpellSlotTable w) as [t0 |];
      [| destruct (SPELL_SLOT_TABLE (host w)) as [t |]; [| done]];
      cbn; unfold applied; cbn; do 3 f_equal;
      try (by rewrite relabel_idem);
      destruct (translations (host w)) as [slots |]; cbn; try done;
      by rewrite relabel_idem.
  - intros w1 Hw1. rewrite applyExpandedSpellSlots_eq in Hw1.
    destruct (snapshot_of w) as [t0 |]; [| done].
    destruct (spellLevels (host w)) as [labels |]; [| done].
    cbn in Hw1. injection Hw1 as <-.
    rewrite updateSpellLevelsConfig_eq. unfold applied. cbn. do 3 f_equal.
    + by rewrite relabel_idem.
    + destruct (translations (host w)) as [slots |]; cbn; [| done].
      by rewrite relabel_idem.
Qed.

Lemma i18nInit_absorbed_witness :
  ∃ w', i18nInit_hook fresh_world = Some w'
    ∧ setup_hook w' = setup_hook fresh_world.
Proof.
  destruct (i18nInit_hook fresh_world) as [w' |] eqn:Hw'.
  - exists w'. split; [done |].
    by apply (proj1 (i18nInit_absorbed fresh_world)).
  - discriminate.
Defined.

Section Ready.

Lemma prepare_actors_fold (l : list Actor) (st : list string * list string) :
  foldl prepare_actor st l = (st.1 ++ callable_names l, st.2 ++ throwing_names l).
Proof.
  unfold callable_names, throwing_names. revert st.
  induction l as [| a l IH]; intros [called warnings]; cbn [foldl].
  - cbn. by rewrite !app_nil_r.
  - rewrite IH. rewrite !filter_cons. unfold prepare_actor.
    destruct (can_prepare a) eqn:Hcan.
    + rewrite decide_True by done.
      destruct (_prepareSpellcasting a) as [[] |] eqn:Hprep; cbn [fst snd].
      * rewrite decide_False by (intros [_ ?]; done).
        by rewrite fmap_cons, <- app_assoc.
      * rewrite decide_True by done.
        by rewrite !fmap_cons, <- !app_assoc.
      * rewrite decide_False by (intros [_ ?]; done).
        by rewrite fmap_cons, <- app_assoc.
    + rewrite decide_False by done.
      by rewrite decide_False by (intros [? _]; done).
Qed.

Lemma prepare_tokens_fold (scene : list (option Actor))
    (st : list string * list string) :
  foldl prepare_token st scene = (st.1 ++ callable_names (omap id scene), st.2).
Proof.
  unfold callable_names. revert st.
  induction scene as [| token scene IH]; intros [called warnings]; cbn [foldl].
  - cbn. by rewrite app_nil_r.
  - rewrite IH. destruct token as [a |]; cbn [prepare_token omap list_omap id].
    + rewrite filter_cons. destruct (can_prepare a) eqn:Hcan; cbn [fst snd].
      * rewrite decide_True by done. by rewrite fmap_cons, <- app_assoc.
      * by rewrite decide_False by done.
    + done.
Qed.

Lemma prepare_scenes_fold (scenes : list (list (option Actor)))
    (st : list string * list string) :
  foldl (λ st scene, foldl prepare_token st scene) st scenes
  = (st.1 ++ callable_names (token_actors scenes), st.2).
Proof.
  unfold token_actors, callable_names. revert st.
  induction scenes as [| scene scenes IH]; intros [called warnings]; cbn [foldl].
  - cbn. by rewrite app_nil_r.
  - rewrite IH, prepare_tokens_fold. cbn [fst snd].
    rewrite bind_cons, filter_app, fmap_app. unfold callable_names.
    by rewrite <- app_assoc.
Qed.

End Ready.

(** X9.  The [ready] hook completes exactly when the templates load and
    the world can be patched.  It then calls [_prepareSpellcasting] once on
    every actor of [game.actors] that has spells and the method, in order,
    then once for every token whose actor has them, whatever calls throw on
    the way: a throwing actor stops nothing.  Only the throwing actors of
    [game.actors] are reported; a throwing token actor is not. *)
Theorem ready_isolates_failures (templates : bool) (g : Game) :
  (is_Some (ready_hook templates g) ↔ templates = true ∧ patchable (world g))
  ∧ ∀ r,
      ready_hook templates g = Some r →
      applyExpandedSpellSlots (world g) = Some (readied_world r)
      ∧ prepared r
        = callable_names (actors g) ++ callable_names (token_actors (scenes g))
      ∧ warned r = throwing_names (actors g).
Proof.
  unfold ready_hook. split.
  - destruct templates; cbn.
    + rewrite <- applyExpandedSpellSlots_is_Some.
      destruct (applyExpandedSpellSlots (world g)); cbn;
        rewrite !is_Some_alt; naive_solver.
    + rewrite is_Some_alt. naive_solver.
  - intros r. destruct templates; cbn; [| done].
    destruct (applyExpandedSpellSlots (world g)) as [w1 |]; cbn; [| done].
    intros [= <-]. cbn. rewrite prepare_scenes_fold, prepare_actors_fold. done.
Qed.

Lemma ready_isolates_failures_witness :
  ∃ r, ready_hook true sample_game = Some r
    ∧ prepared r = ["Ayla"; "Brom"; "Dara"; "Dara"]
    ∧ warned r = ["Brom"].
Proof.
  destruct (ready_hook true sample_game) as [r |] eqn:Hr.
  - exists r. split; [done |].
    destruct (proj2 (ready_isolates_failures true sample_game) r Hr)
      as (_ & -> & ->).
    by vm_compute.
  - discriminate.
Defined.

(** ** Adding and removing tiers *)

(** X10.  [_addLevel] throws exactly when the configuration has no
    [levels] object.  Otherwise it saves a configuration whose
    [maxSpellLevel] is one higher and whose new top tier has the rule
    enabled, character level 20, one slot, whatever rule was stored under
    that number before; every other rule is kept.  It renders once, asks
    for no reload and touches neither the host nor the snapshot. *)
Theorem add_level_spec (w : World) :
  (_addLevel w = None ↔ levels (getConfig (settings w)) = None)
  ∧ ∀ lv,
      levels (getConfig (settings w)) = Some lv →
      ∃ w1,
        _addLevel w = Some w1
        ∧ maxSpellLevel (getConfig (settings w1))
          = maxSpellLevel (getConfig (settings w)) + 1
        ∧ level_config (getConfig (settings w1))
            (maxSpellLevel (getConfig (settings w)) + 1)
          = Some fresh_rule
        ∧ (∀ k, k ≠ maxSpellLevel (getConfig (settings w)) + 1 →
             level_config (getConfig (settings w1)) k
             = level_config (getConfig (settings w)) k)
        ∧ renders w1 = S (renders w)
        ∧ reloads w1 = reloads w
        ∧ host w1 = host w
        ∧ originalSpellSlotTable w1 = originalSpellSlotTable w.
Proof.
  unfold _addLevel. cbv zeta. split.
  - destruct (levels (getConfig (settings w))); cbn; by split.
  - intros lv Hlv. rewrite Hlv. cbn [mbind option_bind].
    eexists. split; [done |]. cbn [settings renders reloads host originalSpellSlotTable].
    rewrite getConfig_settings_set. cbn [maxSpellLevel levels].
    split; [done |]. split; [| split; [| done]].
    + rewrite level_config_lookup. cbn. apply lookup_insert_eq.
    + intros k Hk. rewrite !level_config_lookup, Hlv. cbn.
      apply lookup_insert_ne. intros Heq. by apply (inj pretty) in Heq.
Qed.

Lemma add_level_spec_witness :
  ∃ w1, _addLevel fresh_world = Some w1
    ∧ maxSpellLevel (getConfig (settings w1)) = 13
    ∧ level_config (getConfig (settings w1)) 13 = Some fresh_rule.
Proof.
  destruct (proj2 (add_level_spec fresh_world) _ eq_refl)
    as (w1 & H1 & H2 & H3 & _).
  exists w1. split; [exact H1 |]. split; [exact H2 | exact H3].
Defined.

(** X11.  Adding a tier and removing it again gives back the
    configuration as it was, when [maxSpellLevel] is at least 10 and no
    stale rule sat above it. *)
Theorem add_then_remove_restores (w : World) (lv : gmap string LevelRule) :
  levels (getConfig (settings w)) = Some lv →
  10 ≤ maxSpellLevel (getConfig (settings w)) →
  lv !! pretty (maxSpellLevel (getConfig (settings w)) + 1) = None →
  ∃ w1 w2,
    _addLevel w = Some w1
    ∧ _removeLevel (maxSpellLevel (getConfig (settings w)) + 1) w1 = Some w2
    ∧ getConfig (settings w2) = getConfig (settings w)
    ∧ renders w2 = S (S (renders w)).
Proof.
  intros Hlv Hmax Hfree. unfold _addLevel. cbv zeta. rewrite Hlv.
  cbn [mbind option_bind]. eexists _, _. split; [done |].
  unfold _removeLevel. cbv zeta. cbn [settings]. rewrite getConfig_settings_set.
  cbn [maxSpellLevel levels mbind option_bind].
  destruct (Z.leb_spec (maxSpellLevel (getConfig (settings w)) + 1) 10); [lia |].
  split; [done |]. cbn [settings renders]. rewrite getConfig_settings_set.
  split; [| done].
  rewrite Z.eqb_refl, delete_insert_id by done.
  destruct (getConfig (settings w)) as [m l]. cbn in *. rewrite Hlv.
  f_equal. lia.
Qed.

Lemma add_then_remove_restores_witness :
  ∃ w1 w2,
    _addLevel fresh_world = Some w1
    ∧ _removeLevel 13 w1 = Some w2
    ∧ getConfig (settings w2) = DEFAULT_CONFIG.
Proof.
  destruct (add_then_remove_restores fresh_world _ eq_refl) as (w1 & w2 & H1 & H2 & H3 & _).
  - cbn. lia.
  - by vm_compute.
  - exists w1, w2. split; [exact H1 |]. split; [exact H2 | exact H3].
Defined.

(** X12.  Removing the top tier and adding a tier again restores
    [maxSpellLevel], but not the rule: the top tier comes back enabled,
    from character level 20, with one slot, and the other rules are as
    they were. *)
Theorem remove_then_add_resets (w : World) (lv : gmap string LevelRule) :
  levels (getConfig (settings w)) = Some lv →
  10 < maxSpellLevel (getConfig (settings w)) →
  ∃ w1 w2,
    _removeLevel (maxSpellLevel (getConfig (settings w))) w = Some w1
    ∧ _addLevel w1 = Some w2
    ∧ maxSpellLevel (getConfig (settings w2)) = maxSpellLevel (getConfig (settings w))
    ∧ levels (getConfig (settings w2))
      = Some (<[pretty (maxSpellLevel (getConfig (settings w))) := fresh_rule]> lv).
Proof.
  intros Hlv Hmax. unfold _removeLevel. cbv zeta.
  destruct (Z.leb_spec (maxSpellLevel (getConfig (settings w))) 10); [lia |].
  rewrite Hlv. cbn [mbind option_bind]. eexists _, _. split; [done |].
  unfold _addLevel. cbv zeta. cbn [settings]. rewrite getConfig_settings_set.
  cbn [maxSpellLevel levels mbind option_bind]. split; [done |].
  cbn [settings]. rewrite getConfig_settings_set. cbn [maxSpellLevel levels].
  rewrite Z.eqb_refl.
  replace (maxSpellLevel (getConfig (settings w)) - 1 + 1)
    with (maxSpellLevel (getConfig (settings w))) by lia.
  split; [done |]. by rewrite insert_delete_eq.
Qed.

Lemma remove_then_add_resets_witness :
  level_config (getConfig (settings tuned_world)) 12
  = Some {| enabled := VBool true; characterLevel := VNum 17; slots := VNum 3 |}
  ∧ ∃ w1 w2,
      _removeLevel 12 tuned_world = Some w1
      ∧ _addLevel w1 = Some w2
      ∧ maxSpellLevel (getConfig (settings w2)) = 12
      ∧ level_config (getConfig (settings w2)) 12 = Some fresh_rule.
Proof.
  split; [by vm_compute |].
  destruct (remove_then_add_resets tuned_world _ eq_refl)
    as (w1 & w2 & H1 & H2 & H3 & H4).
  - cbn. lia.
  - exists w1, w2. split; [exact H1 |]. split; [exact H2 |]. split; [exact H3 |].
    rewrite level_config_lookup, H4. cbn. apply lookup_insert_eq.
Defined.

(** ** Form submission *)

Section Submission.

Lemma or_num_nonzero (p : option Z) (d : Z) : d ≠ 0 → p ||| d ≠ 0.
Proof.
  intros Hd. unfold or_num. destruct p as [n |]; [| done].
  by destruct (Z.eqb_spec n 0).
Qed.

(** A default applied once need not be applied again. *)
Lemma or_num_settled (p : option Z) (d : Z) :
  d ≠ 0 → parseInt (VNum (p ||| d)) ||| d = p ||| d.
Proof.
  intros Hd. rewrite parseInt_num. unfold or_num at 1.
  destruct (Z.eqb_spec (p ||| d) 0) as [Hz | Hnz]; [| done].
  by apply or_num_nonzero in Hz.
Qed.

Lemma submitted_enabled_orb (formData : gmap string value) (level : Z) :
  strict_eq (field formData ("levels." +:+ pretty level +:+ ".enabled")) (VBool true)
  || strict_eq (field formData ("levels." +:+ pretty level +:+ ".enabled")) (VStr "on")
  || strict_eq (field formData ("levels." +:+ pretty level +:+ ".enabled")) (VStr "true")
  = submitted_enabled formData level.
Proof.
  unfold submitted_enabled. rewrite !strict_eq_decide.
  set (v := field formData _).
  repeat case_bool_decide; subst; cbn; try done; exfalso; set_solver.
Qed.

Lemma submitted_rule_fields (formData : gmap string value) (level : Z) :
  submitted_rule formData level
  = {| enabled := VBool (submitted_enabled formData level);
       characterLevel := VNum (submitted_characterLevel formData level);
       slots := VNum (submitted_slots formData level) |}.
Proof. unfold submitted_rule. cbv zeta. by rewrite submitted_enabled_orb. Qed.

Lemma stored_flag_read (b : bool) :
  strict_eq (VBool b) (VBool true) || strict_eq (VBool b) (VStr "true") = b.
Proof. by destruct b. Qed.

(** Where a rule of the saved configuration comes from. *)
Lemma submitted_config_lookup_Some (cur : Config) (formData : gmap string value)
    (key : string) (rule : LevelRule) :
  levels (submitted_config cur formData) ≫= (.!! key) = Some rule →
  ∃ level, 10 ≤ level ≤ maxSpellLevel cur
    ∧ key = pretty level ∧ rule = submitted_rule formData level.
Proof.
  unfold submitted_config. cbn. rewrite submitted_levels. intros Hrule.
  destruct (decide (key ∈ pretty <$> range 10 (maxSpellLevel cur))) as [Hin | Hout].
  - apply list_elem_of_fmap in Hin as (level & -> & Hlevel).
    exists level. split; [by apply elem_of_range |]. split; [done |].
    rewrite (foldl_insert_lookup_in pretty (submitted_rule formData)) in Hrule by done.
    by injection Hrule.
  - by rewrite (foldl_insert_lookup_notin pretty (submitted_rule formData)) in Hrule.
Qed.

Lemma tier_write_submitted (cur : Config) (formData : gmap string value)
    (level : Z) (i : nat) :
  10 ≤ level ≤ maxSpellLevel cur →
  tier_write (submitted_config cur formData) level i
  = if submitted_enabled formData level
       && bool_decide (submitted_characterLevel formData level ≤ Z.of_nat i + 1 ≤ 20)
    then Some (submitted_slots formData level)
    else None.
Proof.
  intros Hlevel. unfold tier_write.
  rewrite submitted_config_lookup, submitted_rule_fields by done.
  cbn [enabled_of enabled characterLevel slots mbind option_bind].
  rewrite stored_flag_read.
  unfold submitted_characterLevel, submitted_slots.
  rewrite !or_num_settled by done.
  by destruct (submitted_enabled formData level).
Qed.

End Submission.

(** X13.  What a form submission saves is in normal form: the
    [maxSpellLevel] it found, and rules for tiers of [10 .. maxSpellLevel]
    only, each with a boolean [enabled] and with integers other than 0 for
    [characterLevel] and [slots].  It asks for one reload, renders nothing
    and touches neither the host nor the snapshot. *)
Theorem submission_is_normalized (formData : gmap string value) (w : World) :
  maxSpellLevel (getConfig (settings (_updateObject formData w)))
  = maxSpellLevel (getConfig (settings w))
  ∧ (∀ key rule,
       levels (getConfig (settings (_updateObject formData w))) ≫= (.!! key)
       = Some rule →
       ∃ level b n m,
         10 ≤ level ≤ maxSpellLevel (getConfig (settings w))
         ∧ key = pretty level
         ∧ rule = {| enabled := VBool b; characterLevel := VNum n; slots := VNum m |}
         ∧ n ≠ 0 ∧ m ≠ 0)
  ∧ reloads (_updateObject formData w) = S (reloads w)
  ∧ renders (_updateObject formData w) = renders w
  ∧ host (_updateObject formData w) = host w
  ∧ originalSpellSlotTable (_updateObject formData w) = originalSpellSlotTable w.
Proof.
  unfold _updateObject. cbn [settings reloads renders host originalSpellSlotTable].
  rewrite getConfig_settings_set.
  split; [done |]. split; [| done].
  intros key rule Hrule.
  apply submitted_config_lookup_Some in Hrule as (level & Hlevel & -> & ->).
  exists level. eexists _, _, _. split; [done |]. split; [done |].
  split; [apply submitted_rule_fields |].
  split; by apply or_num_nonzero.
Qed.

(** Form data as a browser sends it: a checked box for tier 10, text in
    the number fields, nothing for tier 11, a zero for tier 12. *)
Lemma submission_is_normalized_witness :
  level_config
    (getConfig (settings (_updateObject
       (<["levels.10.enabled" := VStr "on"]>
          (<["levels.10.characterLevel" := VStr "17"]>
             (<["levels.10.slots" := VStr "abc"]> ∅)))
       fresh_world))) 10
  = Some {| enabled := VBool true; characterLevel := VNum 17; slots := VNum 1 |}
  ∧ ∃ level b n m,
      10 ≤ level ≤ 12 ∧ "10" = pretty level
      ∧ {| enabled := VBool true; characterLevel := VNum 17; slots := VNum 1 |}
        = {| enabled := VBool b; characterLevel := VNum n; slots := VNum m |}
      ∧ n ≠ 0 ∧ m ≠ 0.
Proof.
  assert (level_config
    (getConfig (settings (_updateObject
       (<["levels.10.enabled" := VStr "on"]>
          (<["levels.10.characterLevel" := VStr "17"]>
             (<["levels.10.slots" := VStr "abc"]> ∅)))
       fresh_world))) 10
  = Some {| enabled := VBool true; characterLevel := VNum 17; slots := VNum 1 |})
    as Hrule by (by vm_compute).
  split; [exact Hrule |].
  rewrite level_config_lookup in Hrule.
  exact (proj1 (proj2 (submission_is_normalized _ fresh_world)) "10" _ Hrule).
Defined.

(** ** The form and the table *)

Section Display.

Lemma range_lookup (lo hi : Z) (k : nat) :
  lo + Z.of_nat k ≤ hi → range lo hi !! k = Some (lo + Z.of_nat k).
Proof. intros Hk. unfold range. apply lookup_seqZ. lia. Qed.

Lemma length_range (lo hi : Z) : length (range lo hi) = Z.to_nat (hi - lo + 1).
Proof. unfold range. apply length_seqZ. Qed.

(** The rows of [getData], one per tier from 10 up. *)
Lemma getData_row (w : World) (k : nat) :
  10 + Z.of_nat k ≤ Z.max (maxSpellLevel (getConfig (settings w))) 10 →
  (getData w).1.2 !! k = Some (form_row (getConfig (settings w)) (10 + Z.of_nat k)).
Proof.
  intros Hk. unfold getData. cbv zeta. cbn [fst snd].
  by rewrite list_lookup_fmap, range_lookup.
Qed.

End Display.

(** X14.  [getData] always shows tier 10: its rows are the tiers from
    10 to [maxSpellLevel], or tier 10 alone when [maxSpellLevel] is below
    10, in ascending order, each under its ordinal label.  A tier without
    a stored rule is shown disabled, at character level 20, with one
    slot. *)
Theorem getData_rows (w : World) :
  (getData w).1.1 = getConfig (settings w)
  ∧ (getData w).2 = maxSpellLevel (getConfig (settings w))
  ∧ length (getData w).1.2
    = Z.to_nat (Z.max (maxSpellLevel (getConfig (settings w))) 10 - 9)
  ∧ (getData w).1.2 !! 0%nat = Some (form_row (getConfig (settings w)) 10)
  ∧ (∀ k row,
       (getData w).1.2 !! k = Some row →
       row = form_row (getConfig (settings w)) (10 + Z.of_nat k)
       ∧ row_level row = 10 + Z.of_nat k
       ∧ row_label row = level_label (10 + Z.of_nat k)
       ∧ (level_config (getConfig (settings w)) (10 + Z.of_nat k) = None →
          row_enabled row = false
          ∧ row_characterLevel row = 20 ∧ row_slots row = 1)).
Proof.
  split; [done |]. split; [done |].
  assert (length (getData w).1.2
          = Z.to_nat (Z.max (maxSpellLevel (getConfig (settings w))) 10 - 9))
    as Hlen.
  { unfold getData. cbv zeta. cbn [fst snd].
    rewrite length_fmap, length_range. f_equal. lia. }
  split; [exact Hlen |]. split.
  - rewrite (getData_row w 0) by lia. done.
  - intros k row Hrow.
    assert (k < length (getData w).1.2)%nat as Hk by (by eapply lookup_lt_Some).
    rewrite getData_row in Hrow by lia. injection Hrow as <-.
    split; [done |]. split; [done |]. split; [done |].
    intros Hnone. unfold form_row. by rewrite Hnone.
Qed.

Lemma getData_rows_witness :
  ∃ row, (getData fresh_world).1.2 !! 2%nat = Some row
    ∧ row_level row = 12
    ∧ row_label row = "12th Level".
Proof.
  destruct ((getData fresh_world).1.2 !! 2%nat) as [row |] eqn:Hrow.
  - exists row. split; [done |].
    destruct (proj2 (proj2 (proj2 (proj2 (getData_rows fresh_world)))) 2%nat row Hrow)
      as (_ & H1 & H2 & _).
    split; [exact H1 |]. rewrite H2. by vm_compute.
  - by vm_compute in Hrow.
Defined.

(** X15.  The form shows what the patcher applies: for every tier, the
    outer loop body writes exactly when the tier's row in the form is
    shown enabled, and then it writes the slot count shown, from the
    character level shown up to 20. *)
Theorem form_shows_what_is_patched (config : Config) (t : Table) (level : Z) :
  patch_level config t level
  = if row_enabled (form_row config level)
    then foldl (patch_cell level (row_slots (form_row config level))) t
               (range (row_characterLevel (form_row config level)) 20)
    else t.
Proof.
  unfold patch_level, form_row. cbv zeta.
  destruct (level_config config level) as [rule |]; cbn; [| done].
  by destruct (strict_eq _ _ || strict_eq _ _).
Qed.

(** X16.  After a submission the form shows, for every tier of
    [10 .. maxSpellLevel], the submitted values as they were normalized:
    reading the saved rule back normalizes nothing further. *)
Theorem form_shows_submission (formData : gmap string value) (w : World) (level : Z) :
  10 ≤ level ≤ maxSpellLevel (getConfig (settings w)) →
  (getData (_updateObject formData w)).1.2 !! Z.to_nat (level - 10)
  = Some {| row_level := level;
            row_label := level_label level;
            row_enabled := submitted_enabled formData level;
            row_characterLevel := submitted_characterLevel formData level;
            row_slots := submitted_slots formData level |}.
Proof.
  intros Hlevel.
  assert (maxSpellLevel (getConfig (settings (_updateObject formData w)))
          = maxSpellLevel (getConfig (settings w))) as Hmax.
  { unfold _updateObject. cbn [settings]. by rewrite getConfig_settings_set. }
  rewrite getData_row by (rewrite Hmax; lia).
  replace (10 + Z.of_nat (Z.to_nat (level - 10))) with level by lia.
  unfold _updateObject. cbn [settings]. rewrite getConfig_settings_set.
  unfold form_row. cbv zeta.
  rewrite submitted_config_lookup, submitted_rule_fields by done.
  cbn [from_option]. unfold id. cbn [enabled characterLevel slots].
  rewrite stored_flag_read.
  unfold submitted_characterLevel, submitted_slots.
  by rewrite !or_num_settled.
Qed.

Lemma form_shows_submission_witness :
  (getData (_updateObject (<["levels.11.enabled" := VStr "on"]>
                             (<["levels.11.slots" := VStr "4"]> ∅))
                          fresh_world)).1.2 !! 1%nat
  = Some {| row_level := 11; row_label := "11th Level"; row_enabled := true;
            row_characterLevel := 20; row_slots := 4 |}.
Proof.
  rewrite (form_shows_submission _ fresh_world 11 ltac:(cbn; lia)).
  by vm_compute.
Defined.

(** X17.  From the form to the table.  When the configuration saved by
    a submission is applied, a tier whose box was submitted as [true],
    ["on"] or ["true"] gets the submitted slot count in every existing row
    from the submitted character level to 20; for a tier submitted
    otherwise, and in the rows outside that span, the tier's column keeps
    the values it had. *)
Theorem submission_reaches_table
    (formData : gmap string value) (w : World) (t0 : Table)
    (level : Z) (i : nat) (row : list Z) :
  snapshot_of w = Some t0 →
  is_Some (spellLevels (host w)) →
  10 ≤ level ≤ maxSpellLevel (getConfig (settings w)) →
  t0 !! i = Some row →
  ∃ w1 t1,
    applyExpandedSpellSlots (_updateObject formData w) = Some w1
    ∧ SPELL_SLOT_TABLE (host w1) = Some t1
    ∧ (submitted_enabled formData level = true →
       submitted_characterLevel formData level ≤ Z.of_nat i + 1 ≤ 20 →
       cell t1 i (Z.to_nat (level - 1)) = Some (submitted_slots formData level))
    ∧ (submitted_enabled formData level = false
       ∨ ¬ submitted_characterLevel formData level ≤ Z.of_nat i + 1 ≤ 20 →
       ∀ v, cell t0 i (Z.to_nat (level - 1)) = Some v →
            cell t1 i (Z.to_nat (level - 1)) = Some v).
Proof.
  intros Hsnap [labels Hlabels] Hlevel Hrow.
  rewrite applyExpandedSpellSlots_eq.
  assert (snapshot_of (_updateObject formData w) = Some t0) as -> by done.
  cbn [_updateObject host]. rewrite Hlabels. cbn [mbind option_bind].
  eexists _, _. split; [done |]. cbn [applied host SPELL_SLOT_TABLE].
  split; [done |]. cbn [_updateObject settings].
  rewrite getConfig_settings_set.
  destruct (patch_table_row (submitted_config (getConfig (settings w)) formData)
              t0 i row Hrow) as (row' & Hrow' & _ & Hcells).
  specialize (Hcells (Z.to_nat (level - 1))). unfold target in Hcells.
  replace (Z.of_nat (Z.to_nat (level - 1)) + 1) with level in Hcells by lia.
  rewrite bool_decide_eq_true_2 in Hcells by done.
  rewrite tier_write_submitted in Hcells by done.
  unfold cell. rewrite Hrow', Hrow. cbn. split.
  - intros Hen Hspan.
    by rewrite Hen, bool_decide_eq_true_2 in Hcells.
  - intros Hno v Hv.
    assert (submitted_enabled formData level
            && bool_decide (submitted_characterLevel formData level
                            ≤ Z.of_nat i + 1 ≤ 20) = false) as Hoff.
    { destruct Hno as [-> | Hspan]; [done |].
      rewrite bool_decide_eq_false_2 by done. apply andb_false_r. }
    rewrite Hoff in Hcells. destruct Hcells as [Hkeep _].
    rewrite Hkeep; [done |]. by eapply lookup_lt_Some.
Qed.

Lemma submission_reaches_table_witness :
  ∃ w1 t1,
    applyExpandedSpellSlots
      (_updateObject (<["levels.11.enabled" := VStr "on"]>
                        (<["levels.11.slots" := VStr "4"]> ∅)) fresh_world)
    = Some w1
    ∧ SPELL_SLOT_TABLE (host w1) = Some t1
    ∧ cell t1 19 10 = Some 4.
Proof.
  destruct (submission_reaches_table
              (<["levels.11.enabled" := VStr "on"]> (<["levels.11.slots" := VStr "4"]> ∅))
              fresh_world sample_table 11 19%nat [4; 3; 3; 3; 3; 2; 2; 1; 1])
    as (w1 & t1 & H1 & H2 & H3 & _).
  - reflexivity.
  - by eexists.
  - cbn. lia.
  - reflexivity.
  - exists w1, t1. split; [exact H1 |]. split; [exact H2 |].
    apply H3; by vm_compute.
Defined.

(** ** The span of character levels of a tier *)

Lemma tier_write_rule (config : Config) (sl : Z) (rule : LevelRule) (i : nat) :
  level_config config sl = Some rule →
  enabled rule = VBool true ∨ enabled rule = VStr "true" →
  tier_write config sl i
  = if bool_decide (parseInt (characterLevel rule) ||| 20 ≤ Z.of_nat i + 1 ≤ 20)
    then Some (parseInt (slots rule) ||| 1)
    else None.
Proof.
  intros Hrule Hen. unfold tier_write. rewrite Hrule. cbn.
  rewrite !strict_eq_decide.
  by destruct Hen as [-> | ->]; repeat case_bool_decide.
Qed.

(** X18.  The rows an enabled tier reaches.  A required character level
    above 20 makes the tier write nothing.  A required level that is
    absent, does not parse or is 0 counts as 20: only the row of character
    level 20 is written.  A required level of 1 or less, negative ones
    included, makes the tier write every row of character levels 1 to 20
    that exists, and nothing else. *)
Theorem required_level_span (config : Config) (t : Table) (sl : Z) (rule : LevelRule) :
  level_config config sl = Some rule →
  enabled rule = VBool true ∨ enabled rule = VStr "true" →
  (20 < parseInt (characterLevel rule) ||| 20 → patch_level config t sl = t)
  ∧ (parseInt (characterLevel rule) = None ∨ parseInt (characterLevel rule) = Some 0 →
     ∀ i, patch_level config t sl !! i
          = (if bool_decide (i = 19%nat)
             then write_row sl (parseInt (slots rule) ||| 1) else id) <$> t !! i)
  ∧ (parseInt (characterLevel rule) ||| 20 ≤ 1 →
     ∀ i, patch_level config t sl !! i
          = (if bool_decide (i < 20)%nat
             then write_row sl (parseInt (slots rule) ||| 1) else id) <$> t !! i).
Proof.
  intros Hrule Hen.
  assert (∀ i, patch_level config t sl !! i
    = (if bool_decide (parseInt (characterLevel rule) ||| 20 ≤ Z.of_nat i + 1 ≤ 20)
       then write_row sl (parseInt (slots rule) ||| 1) else id) <$> t !! i) as Hrows.
  { intros i. rewrite patch_level_lookup. unfold tier_on_row.
    rewrite (tier_write_rule config sl rule i Hrule Hen).
    destruct (t !! i) as [row |]; [| done]. cbn. by case_bool_decide. }
  split; [| split].
  - intros Hreq. apply list_eq. intros i. rewrite Hrows.
    rewrite bool_decide_eq_false_2 by lia. by destruct (t !! i).
  - intros Hreq i. rewrite Hrows.
    assert (parseInt (characterLevel rule) ||| 20 = 20) as ->
      by (by destruct Hreq as [-> | ->]).
    destruct (t !! i) as [row |]; [| done]. cbn.
    repeat case_bool_decide; done || lia.
  - intros Hreq i. rewrite Hrows.
    destruct (t !! i) as [row |]; [| done]. cbn.
    repeat case_bool_decide; done || lia.
Qed.

(** A tier 10 whose required character level is the text ["soon"]. *)
Lemma required_level_span_witness :
  patch_level
    {| maxSpellLevel := 10;
       levels := Some (<["10" := {| enabled := VBool true;
                                    characterLevel := VStr "soon";
                                    slots := VNum 2 |}]> ∅) |}
    sample_table 10 !! 18%nat
  = Some [4; 3; 3; 3; 3; 2; 1; 1; 1].
Proof.
  rewrite (proj1 (proj2 (required_level_span
    {| maxSpellLevel := 10;
       levels := Some (<["10" := {| enabled := VBool true;
                                    characterLevel := VStr "soon";
                                    slots := VNum 2 |}]> ∅) |}
    sample_table 10
    {| enabled := VBool true; characterLevel := VStr "soon"; slots := VNum 2 |}
    ltac:(by vm_compute) ltac:(by left)))) by (by left).
  reflexivity.
Defined.
